(** * neural-beats: the drum-pattern codec, dataset builder and generator

    A shallow embedding of [lstm_model_single.py].  Python integers are [Z],
    numpy arrays are lists of rows that carry their column count, the two
    lookup tables are finite maps, exceptions are values of [result], and the
    code that talks to the file system, the random number generator and the
    classifier runs in a small state-and-error monad over a [world]. *)

From Stdlib Require Import Ascii String QArith.QArith_base.
From Stdlib Require Floats.SpecFloat.
From stdpp Require Import numbers strings list gmap fin_maps.

Set Default Proof Using "Type".
Local Open Scope Z_scope.

(** ** Exceptions *)

Inductive exn := AssertionError | KeyError | IndexError | ValueError.

Inductive result (A : Type) : Type :=
  | Ok (a : A)
  | Raise (e : exn).
Arguments Ok {A} a.
Arguments Raise {A} e.

#[global] Instance result_ret : MRet result := λ A a, Ok a.
#[global] Instance result_bind : MBind result := λ A B f m,
  match m with Ok a => f a | Raise e => Raise e end.

Definition is_Ok {A} (r : result A) : Prop := ∃ a, r = Ok a.

(** [[f(x) for x in l]] with an [f] that may raise: the first exception
    aborts the comprehension. *)
Fixpoint mapM_result {A B} (f : A → result B) (l : list A) : result (list B) :=
  match l with
  | [] => Ok []
  | x :: l' => y ← f x; ys ← mapM_result f l'; Ok (y :: ys)
  end.

(** A [for] loop threading a value through a body that may raise. *)
Fixpoint foldM_result {A S} (body : S → A → result S) (s : S) (l : list A) : result S :=
  match l with
  | [] => Ok s
  | x :: l' => s' ← body s x; foldM_result body s' l'
  end.

(** ** Python and numpy primitives *)

(** [enumerate(l)]. *)
Definition enumerate {A} (l : list A) : list (Z * A) :=
  imap (λ i x, (Z.of_nat i, x)) l.

(** [xrange(n)]: empty when [n <= 0]. *)
Definition xrange (n : Z) : list Z := seqZ 0 n.

(** [itertools.product(pool, repeat=n)], after the equivalent code of the
    library's documentation:
      result = [[]]
      for pool in pools: result = [x+[y] for x in result for y in pool] *)
Fixpoint product {A} (pool : list A) (repeat : nat) : list (list A) :=
  match repeat with
  | O => [[]]
  | S n => flat_map (λ x, map (λ y, x ++ [y]) pool) (product pool n)
  end.

(** [d[k]]: a missing key raises [KeyError]. *)
Definition dict_get `{Countable K} {V} (d : gmap K V) (k : K) : result V :=
  match d !! k with Some v => Ok v | None => Raise KeyError end.

(** A two-dimensional numpy array: [shape1] is [a.shape[1]], [rows a] the
    rows in order, so [a.shape[0]] is [length (rows a)].  Cells are integers;
    the program only compares them with 0 and copies them. *)
Record ndarray := NdArray { shape1 : nat; rows : list (list Z) }.

Definition shape0 (a : ndarray) : nat := length (rows a).

Definition wf_ndarray (a : ndarray) : Prop :=
  Forall (λ r, length r = shape1 a) (rows a).

(** Index normalisation of numpy: [i] in [[0,n)] is itself, [i] in
    [[-n,0)] counts from the end, anything else raises [IndexError]. *)
Definition np_index (n : nat) (i : Z) : result nat :=
  if bool_decide (0 ≤ i < Z.of_nat n) then Ok (Z.to_nat i)
  else if bool_decide (- Z.of_nat n ≤ i < 0) then Ok (Z.to_nat (i + Z.of_nat n))
  else Raise IndexError.

(** [l[i] = f(l[i])], used to write one cell of a nested array. *)
Definition np_update {A} (l : list A) (i : Z) (f : A → result A) : result (list A) :=
  k ← np_index (length l) i;
  match l !! k with
  | Some a => a' ← f a; Ok (<[k := a']> l)
  | None => Raise IndexError
  end.

(** [np.vstack(ls)] of a list of equally long lists. *)
Definition np_vstack (ls : list (list Z)) : result ndarray :=
  match ls with
  | [] => Raise ValueError
  | r :: _ =>
      if forallb (λ r', bool_decide (length r' = length r)) ls
      then Ok (NdArray (length r) ls)
      else Raise ValueError
  end.

(** [c * a] for a scalar [c]. *)
Definition np_scale (c : Z) (a : ndarray) : ndarray :=
  NdArray (shape1 a) (map (map (Z.mul c)) (rows a)).

(** [np.argmax(l)] of a flattened array: the first index of the largest
    entry; an empty array raises [ValueError]. *)
Fixpoint argmax_from (best : Z) (besti i : Z) (l : list Z) : Z :=
  match l with
  | [] => besti
  | x :: l' => if bool_decide (best < x) then argmax_from x i (i + 1) l'
               else argmax_from best besti (i + 1) l'
  end.

Definition np_argmax (l : list Z) : result Z :=
  match l with
  | [] => Raise ValueError
  | x :: l' => Ok (argmax_from x 0 1 l')
  end.

(** [l[i]] on a list or a one-dimensional array. *)
Definition getitem {A} (l : list A) (i : Z) : result A :=
  k ← np_index (length l) i;
  match l !! k with Some a => Ok a | None => Raise IndexError end.

(** [l[a:b]] for [0 <= a] and [0 <= b], the only slices the program takes:
    both ends are clipped to the length. *)
Definition slice {A} (l : list A) (a b : Z) : list A :=
  drop (Z.to_nat a) (take (Z.to_nat b) l).

(** [np.zeros((n, m))] and [np.zeros((n, m, k))]: a negative dimension
    raises [ValueError] ("negative dimensions are not allowed"). *)
Definition np_zeros2 {A} (zero : A) (n : Z) (m : nat) : result (list (list A)) :=
  if bool_decide (n < 0) then Raise ValueError
  else Ok (replicate (Z.to_nat n) (replicate m zero)).

Definition np_zeros3 {A} (zero : A) (n : Z) (m k : nat) : result (list (list (list A))) :=
  if bool_decide (n < 0) then Raise ValueError
  else Ok (replicate (Z.to_nat n) (replicate m (replicate k zero))).

(** [a[i, j] = v] and [a[i, j, k] = v]. *)
Definition set2 {A} (a : list (list A)) (i j : Z) (v : A) : result (list (list A)) :=
  np_update a i (λ row, np_update row j (λ _, Ok v)).

Definition set3 {A} (a : list (list (list A))) (i j k : Z) (v : A)
  : result (list (list (list A))) :=
  np_update a i (λ plane, set2 plane j k v).

(** [a[:, cols]] with a list of columns.  Every column index is normalised
    against [a.shape[1]]; the numpy releases that run this Python 2 source
    (all those before 1.20) check the bounds of an index array only when the
    result is not empty, so an array with no rows gives the empty
    [0 x len(cols)] array whatever the columns are. *)
Definition np_take_cols (a : ndarray) (cols : list Z) : result ndarray :=
  match rows a with
  | [] => Ok (NdArray (length cols) [])
  | _ :: _ =>
      ks ← mapM_result (np_index (shape1 a)) cols;
      Ok (NdArray (length cols) (map (λ r, map (λ k, default 0 (r !! k)) ks) (rows a)))
  end.

(** [a[:, i]] *)
Definition np_get_col (a : ndarray) (i : Z) : result (list Z) :=
  k ← np_index (shape1 a) i;
  Ok (map (λ r, default 0 (r !! k)) (rows a)).

(** [res[:, p] = col], for a [col] with one entry per row of [res]. *)
Definition np_set_col (res : ndarray) (p : Z) (col : list Z) : result ndarray :=
  k ← np_index (shape1 res) p;
  Ok (NdArray (shape1 res) (zip_with (λ r v, <[k := v]> r) (rows res) col)).

(** [np.sum(np.sum(a > 0))]: the number of cells above 0. *)
Definition count_active (a : ndarray) : Z :=
  foldr Z.add 0 (map (λ v, Z.b2z (bool_decide (0 < v))) (concat (rows a))).

(** [s.split('.')]: never empty. *)
Fixpoint split_dot (s : string) : list string :=
  match s with
  | EmptyString => [EmptyString]
  | String c s' =>
      if Ascii.eqb c "."%char then EmptyString :: split_dot s'
      else match split_dot s' with
           | [] => [String c EmptyString]
           | seg :: segs => String c seg :: segs
           end
  end.

(** [filename.split('.')[-1]] *)
Definition extension (filename : string) : string :=
  default EmptyString (last (split_dot filename)).

(** ** Unfolding adapter (lines 74-82) *)

Definition unfold (midi_array : ndarray) (pitches : list Z) : result ndarray :=
  let res := NdArray 128 (replicate (shape0 midi_array) (replicate 128 0)) in
  if bool_decide (shape1 midi_array = length pitches) then
    foldM_result
      (λ res i,
         p ← getitem pitches i;
         col ← np_get_col midi_array i;
         np_set_col res p col)
      res (xrange (Z.of_nat (length pitches)))
  else Raise AssertionError.

(** A string template with the arguments of its [.format(...)] call, kept
    unrendered. *)
Inductive fmt_arg := FInt (z : Z) | FFloat (q : Q).
Record formatted := Format { template : string; fmt_args : list fmt_arg }.

(** ** The run configuration and the external collaborators *)

(** The module-level constants (lines 19-35).  The development is generic in
    them; [source] below holds the repository's values. *)
Class Config := {
  PITCHES : list Z;
  OUT_PITCHES : list Z;
  PHRASE_LEN : nat;
  MIN_HITS : Z;
  MIDI_IN_DIR : string;
  MIDI_OUT_DIR : string;
  MODEL_OUT_DIR : string;
  MODEL_NAME : string
}.

Definition source : Config := {|
  PITCHES := [36; 38; 42; 51];
  OUT_PITCHES := [54; 56; 58; 60];
  PHRASE_LEN := 32;
  MIN_HITS := 8;
  MIDI_IN_DIR := "/home/ubuntu/neural-beats/midi_arrays/";
  MIDI_OUT_DIR := "/home/ubuntu/neural-beats/midi-out";
  MODEL_OUT_DIR := "/home/ubuntu/neural-beats/models";
  MODEL_NAME := "model"
|}.

(** What the program imports: numpy's floating-point numbers with the
    operations [sample] applies to them (left uninterpreted), the state of
    [np.random], the keras classifier and [midi_util.array_to_midi].
    [np_random_multinomial g n pvals size] is
    [np.random.multinomial(n, pvals, size)] run in state [g]. *)
Class External := {
  float : Type;
  float_of_Q : Q → float;
  np_log : float → float;
  np_exp : float → float;
  np_div : float → float → float;
  np_sum : list float → float;
  rng : Type;
  np_random_seed : Z → rng;
  np_random_multinomial : rng → Z → list float → Z → result (list (list Z)) * rng;
  model : Type;
  init_model : model;
  load_weights : model → string * string → model;
  predict : model → list (list (list Z)) → list (list float);
  midi : Type;
  array_to_midi : ndarray → formatted → midi
}.

Section Codec.
Context `{Config}.

(** [len(PITCHES)] and [2**len(PITCHES)]. *)
Definition num_pitches : nat := length PITCHES.
Definition num_classes : nat := 2 ^ num_pitches.

(** ** Configuration codec (lines 38-71) *)

(** [assert len(PITCHES) <= 8, ...] *)
Definition check_pitches : result unit :=
  if bool_decide (Z.of_nat (length PITCHES) ≤ 8) then Ok tt else Raise AssertionError.

(** The enumeration both comprehensions run over. *)
Definition configurations : list (list Z) := product [0; 1] (length PITCHES).

(** [{config : i for i, config in enumerate(...)}]: a later pair with the
    same key would overwrite an earlier one. *)
Definition encodings : gmap (list Z) Z :=
  foldl (λ d '(i, config), <[config := i]> d) ∅ (enumerate configurations).

(** [{i : config for i, config in enumerate(...)}] *)
Definition decodings : gmap Z (list Z) :=
  foldl (λ d '(i, config), <[i := config]> d) ∅ (enumerate configurations).

(** [(time_slice>0).astype(int)] as a tuple. *)
Definition threshold (time_slice : list Z) : list Z :=
  map (λ v, Z.b2z (bool_decide (0 < v))) time_slice.

Definition encode (midi_array : ndarray) : result (list Z) :=
  mapM_result (λ time_slice, dict_get encodings (threshold time_slice))
              (rows midi_array).

Definition velocity : Z := 120.

Definition decode (config_ids : list Z) : result ndarray :=
  ls ← mapM_result (λ id, dict_get decodings id) config_ids;
  stacked ← np_vstack ls;
  Ok (np_scale velocity stacked).


End Codec.

Section Program.
Context `{Config} `{External}.

(** ** The world: files, random state and what the program has output *)

(** [os.path.join(a, b)], kept as its two components. *)
Definition path : Type := string * string.

Inductive event :=
  | EvWalk (dir : string)
  | EvLoad (file : path)
  | EvPrint (n : Z)
  | EvPrintArray (a : ndarray)
  | EvLoadWeights (file : path)
  | EvSave (file : string * formatted) (mid : midi)
  | EvCall_generate (mid_name : formatted) (temperature : float) (len : nat).

(** [fs] is what [os.walk(MIDI_IN_DIR)] yields, each file name with the array
    [np.load] returns for it; [out] is the trace of the I/O done so far,
    oldest first.  The trace also records every entry into [generate] with
    the arguments of the call. *)
Record world := World {
  fs : list (string * list (string * ndarray));
  gen : rng;
  out : list event
}.

Definition M (A : Type) : Type := world → result A * world.

Definition ret {A} (a : A) : M A := λ w, (Ok a, w).

Definition bind {A B} (m : M A) (k : A → M B) : M B := λ w,
  match m w with
  | (Ok a, w') => k a w'
  | (Raise e, w') => (Raise e, w')
  end.

Definition lift {A} (r : result A) : M A := λ w, (r, w).

Definition emit (e : event) : M unit := λ w,
  (Ok tt, World (fs w) (gen w) (out w ++ [e])).

Notation "x ←← m ;; k" := (bind m (λ x, k))
  (at level 100, m at next level, right associativity, only parsing).
Notation "m ;;; k" := (bind m (λ _, k))
  (at level 100, right associativity, only parsing).

(** A [for] loop with a loop-carried value. *)
Fixpoint foldM {A S} (body : S → A → M S) (s : S) (l : list A) : M S :=
  match l with
  | [] => ret s
  | x :: l' => s' ←← body s x ;; foldM body s' l'
  end.

(** A [for] loop run for its effects. *)
Fixpoint forM_ {A} (l : list A) (body : A → M unit) : M unit :=
  match l with
  | [] => ret tt
  | x :: l' => body x ;;; forM_ l' body
  end.

(** [for j in range(n)] with a loop-carried value. *)
Fixpoint repeatM {S} (n : nat) (body : S → M S) (s : S) : M S :=
  match n with
  | O => ret s
  | S n' => s' ←← body s ;; repeatM n' body s'
  end.

Definition os_walk (dir : string) : M (list (string * list (string * ndarray))) :=
  emit (EvWalk dir) ;;; (λ w, (Ok (fs w), w)).

Definition np_load (root : string) (file : string * ndarray) : M ndarray :=
  emit (EvLoad (root, file.1)) ;;; ret file.2.

Definition multinomial (n : Z) (pvals : list float) (size : Z) : M (list (list Z)) :=
  λ w, let '(r, g) := np_random_multinomial (gen w) n pvals size in
       (r, World (fs w) g (out w)).

(** ** Sampler (lines 52-56) *)

Definition sample (a : list float) (temperature : float) : M Z :=
  let a := map (λ x, np_div (np_log x) temperature) a in
  let total := np_sum (map np_exp a) in
  let a := map (λ x, np_div (np_exp x) total) a in
  counts ←← multinomial 1 a 1 ;;
  lift (np_argmax (concat counts)).

(** ** Dataset builder (lines 85-115) *)

(** The body of the inner loop of lines 94-101, for one file of a directory;
    [array[:, PITCHES]] is written once for its three uses. *)
Definition load_file (root : string) (config_seq : list Z) (file : string * ndarray)
  : M (list Z) :=
  if negb (String.eqb (extension file.1) "npy") then ret config_seq
  else
    array ←← np_load root file ;;
    sub ←← lift (np_take_cols array PITCHES) ;;
    emit (EvPrint (count_active sub)) ;;;
    if bool_decide (count_active sub < MIN_HITS) then ret config_seq
    else
      ids ←← lift (encode sub) ;;
      ret (config_seq ++ ids).

(** Lines 92-102. *)
Definition load_config_seq : M (list Z) :=
  tree ←← os_walk MIDI_IN_DIR ;;
  foldM (λ config_seq '(root, files), foldM (load_file root) config_seq files) [] tree.

(** Lines 104-113: the labelled examples of an event sequence. *)
Definition construct_examples (config_seq : list Z)
  : result (list (list (list Z)) * list (list Z)) :=
  let num_examples := Z.of_nat (length config_seq) - Z.of_nat PHRASE_LEN in
  X ← np_zeros3 false num_examples PHRASE_LEN num_classes;
  y ← np_zeros2 false num_examples num_classes;
  Xy ← foldM_result
    (λ '(X, y) i,
       X ← foldM_result (λ X '(j, cid), set3 X i j cid true) X
             (enumerate (slice config_seq i (i + Z.of_nat PHRASE_LEN)));
       label ← getitem config_seq (i + Z.of_nat PHRASE_LEN);
       y ← set2 y i label true;
       Ok (X, y))
    (X, y) (xrange num_examples);
  Ok (map (map (map Z.b2z)) Xy.1, map (map Z.b2z) Xy.2).

Definition prepare_data : M (list Z * list (list (list Z)) * list (list Z)) :=
  config_seq ←← load_config_seq ;;
  Xy ←← lift (construct_examples config_seq) ;;
  ret (config_seq, Xy.1, Xy.2).

(** ** Generator (lines 118-142) *)

(** Lines 130-132: the one-hot input of the classifier. *)
Definition one_hot_phrase (phrase : list Z) : result (list (list (list Z))) :=
  x ← np_zeros3 0 1 PHRASE_LEN num_classes;
  foldM_result (λ x '(t, config_id), set3 x 0 t config_id 1) x (enumerate phrase).

(** The loop state is [(generated, phrase)]; one iteration of lines 130-137. *)
Definition generate_step (m : model) (temperature : float) (st : list Z * list Z)
  : M (list Z * list Z) :=
  let '(generated, phrase) := st in
  x ←← lift (one_hot_phrase phrase) ;;
  preds ←← lift (getitem (predict m x) 0) ;;
  next_id ←← sample preds temperature ;;
  ret (generated ++ [next_id], slice phrase 1 (Z.of_nat (length phrase)) ++ [next_id]).

(** Lines 129-137. *)
Definition generate_loop (m : model) (seed : list Z) (temperature : float) (len : nat)
  : M (list Z * list Z) :=
  repeatM len (generate_step m temperature) ([], seed).

Definition generate (m : model) (seed : list Z) (mid_name : formatted)
    (temperature : float) (len : nat) : M midi :=
  emit (EvCall_generate mid_name temperature len) ;;;
  phrase_array ←← lift (decode seed) ;;
  emit (EvPrintArray phrase_array) ;;;
  st ←← generate_loop m seed temperature len ;;
  decoded ←← lift (decode st.1) ;;
  unfolded ←← lift (unfold decoded OUT_PITCHES) ;;
  let mid := array_to_midi unfolded mid_name in
  emit (EvSave (MIDI_OUT_DIR, mid_name) mid) ;;;
  ret mid.

(** ** The driver (lines 209-233) *)

(** Lines 214-222. *)
Definition run_seed : result ndarray :=
  seed ← np_zeros2 0 32 4;
  seed ← foldM_result (λ seed '(r, c), set2 seed r c 1) seed
            [(0, 0); (4, 2); (8, 0); (12, 2); (16, 0); (20, 2); (24, 0); (28, 2)];
  Ok (NdArray 4 seed).

Definition run : M unit :=
  _ ←← prepare_data ;;
  let m := init_model in
  emit (EvLoadWeights (MODEL_OUT_DIR, MODEL_NAME)) ;;;
  let m := load_weights m (MODEL_OUT_DIR, MODEL_NAME) in
  seed ←← lift run_seed ;;
  let len := 4096%nat in
  forM_ [(7 # 10)%Q; (9 # 10)%Q; (11 # 10)%Q] (λ temperature,
    forM_ (xrange 5) (λ i,
      ids ←← lift (encode seed) ;;
      generate m ids
        (Format "out{}_{}_{}.mid" [FInt (Z.of_nat len); FFloat temperature; FInt i])
        (float_of_Q (11 # 10)%Q) len ;;;
      ret tt)).

(** The module body: the seeding of line 17, the assertion of line 40, the
    two tables, and the call of [run] on the last line. *)
Definition main : M unit :=
  (λ w, (Ok tt, World (fs w) (np_random_seed 10) (out w))) ;;;
  lift check_pitches ;;;
  run.

End Program.

Section Training.
Context `{Config} `{External}.

Notation "x ←← m ;; k" := (bind m (λ x, k))
  (at level 100, m at next level, right associativity, only parsing).
Notation "m ;;; k" := (bind m (λ _, k))
  (at level 100, right associativity, only parsing).

(** Lines 183-204 of [train]: the body of the loop over temperatures in
    iteration [i] of the outer loop, with [start_index] the index drawn at
    line 178.  Lines 191-199 are the loop body of [generate] written out a
    second time, 512 iterations of it. *)
Definition train_generation (m : model) (config_seq : list Z) (start_index : Z)
    (i : Z) (temperature : Q) : M unit :=
  let generated : list Z := [] in
  let phrase := slice config_seq start_index (start_index + Z.of_nat PHRASE_LEN) in
  phrase_array ←← lift (decode phrase) ;;
  emit (EvPrintArray phrase_array) ;;;
  st ←← repeatM 512 (generate_step m (float_of_Q temperature)) (generated, phrase) ;;
  let mid_name := Format "out_{}_{}.mid" [FInt i; FFloat temperature] in
  decoded ←← lift (decode st.1) ;;
  unfolded ←← lift (unfold decoded OUT_PITCHES) ;;
  let mid := array_to_midi unfolded mid_name in
  emit (EvSave (MIDI_OUT_DIR, mid_name) mid).

(** Line 179: the loop over the four temperatures. *)
Definition train_generations (m : model) (config_seq : list Z) (start_index : Z)
    (i : Z) : M unit :=
  forM_ [(2 # 10)%Q; (5 # 10)%Q; (10 # 10)%Q; (12 # 10)%Q]
        (train_generation m config_seq start_index i).

End Training.

Arguments encode : simpl never.
Arguments decode : simpl never.
Arguments unfold : simpl never.
Arguments construct_examples : simpl never.
Arguments np_take_cols : simpl never.
Arguments count_active : simpl never.
Arguments one_hot_phrase : simpl never.

(** ** Specification-level definitions *)

(** The binary digits of [i] on [P] positions, most significant first. *)
Definition binary_digits (P : nat) (i : Z) : list Z :=
  map (λ j : nat, Z.b2z (Z.testbit i (Z.of_nat (P - 1 - j)))) (seq 0 P).

(** The number a 0/1 vector spells in binary, first entry most
    significant. *)
Definition class_id (c : list Z) : Z := foldl (λ acc b, 2 * acc + b) 0 c.

(** Column [k] of an array, as [a[:, k]] reads it. *)
Definition column (a : ndarray) (k : nat) : list Z :=
  map (λ r, default 0 (r !! k)) (rows a).

(** Row [ar] of the input written into a row of 128 zeros, for the first [k]
    pitches. *)
Definition scatter (pitches : list Z) (ar : list Z) (k : nat) : list Z :=
  foldl (λ acc i, <[Z.to_nat (default 0 (pitches !! i)) := default 0 (ar !! i)]> acc)
        (replicate 128 0) (seq 0 k).

Arguments scatter : simpl never.

(** The one-hot row of class [c] among [n] classes. *)
Definition one_hot (n : nat) (c : Z) : list Z := <[Z.to_nat c := 1]> (replicate n 0).

(** [a[:, cols]] when every column exists. *)
Definition restrict (a : ndarray) (cols : list Z) : ndarray :=
  NdArray (length cols) (map (λ r, map (λ p, default 0 (r !! Z.to_nat p)) cols) (rows a)).
Arguments restrict : simpl never.

Section ExampleSpec.
Context `{Config}.

(** What one file of the corpus adds to the event sequence: nothing unless
    it is an [npy] file with at least [MIN_HITS] active cells in the pitch
    columns, and then the class id of each of its rows. *)
Definition contribution (file : string * ndarray) : list Z :=
  if negb (String.eqb (extension file.1) "npy") then []
  else if bool_decide (count_active (restrict file.2 PITCHES) < MIN_HITS) then []
  else map (λ row, class_id (threshold row)) (rows (restrict file.2 PITCHES)).

(** The event sequence of a corpus: the contributions of its files, in the
    order [os.walk] yields them. *)
Definition event_sequence (tree : list (string * list (string * ndarray))) : list Z :=
  flat_map (λ dir, flat_map contribution dir.2) tree.

(** A file the loader can read: its array has every pitch column. *)
Definition readable (file : string * ndarray) : Prop :=
  Forall (λ p, 0 ≤ p < Z.of_nat (shape1 file.2)) PITCHES.

(** The context window that starts at position [i] of an event sequence,
    one one-hot row per entry, and the one-hot label that follows it. *)
Definition window_one_hot (config_seq : list Z) (i : nat) : list (list Z) :=
  map (one_hot num_classes) (take PHRASE_LEN (drop i config_seq)).

Definition label_one_hot (config_seq : list Z) (i : nat) : list Z :=
  one_hot num_classes (default 0 (config_seq !! (i + PHRASE_LEN)%nat)).

End ExampleSpec.

Section ProgramSpec.
Context `{Config} `{External}.

(** What the loader prints and reads for one file. *)
Definition load_events (root : string) (file : string * ndarray) : list event :=
  if negb (String.eqb (extension file.1) "npy") then []
  else [EvLoad (root, file.1); EvPrint (count_active (restrict file.2 PITCHES))].

(** A corpus the loader can read: every [npy] file has the pitch columns. *)
Definition corpus_readable (tree : list (string * list (string * ndarray))) : Prop :=
  Forall (λ dir, Forall (λ file, String.eqb (extension file.1) "npy" = true → readable file)
                        dir.2) tree.

(** The trace the loader leaves for a corpus. *)
Definition corpus_events (tree : list (string * list (string * ndarray))) : list event :=
  flat_map (λ dir, flat_map (load_events dir.1) dir.2) tree.

(** What the development assumes of the collaborators: the classifier
    answers with one probability per class, and a multinomial draw of one
    trial, asked once, returns one row of counts, one count per
    probability. *)
Definition predict_contract : Prop :=
  ∀ m x, ∃ preds rest, predict m x = preds :: rest ∧ length preds = num_classes.

Definition multinomial_contract : Prop :=
  ∀ g pvals, ∃ counts g',
    np_random_multinomial g 1 pvals 1 = (Ok [counts], g') ∧
    length counts = length pvals.

(** What a draw that returns gives: for one experiment repeated once, one
    row of counts, one count per probability.  The draw may also raise. *)
Definition draw_contract : Prop :=
  ∀ g pvals r g',
    np_random_multinomial g 1 pvals 1 = (Ok r, g') →
    ∃ counts, r = [counts] ∧ length counts = length pvals.

(** The probabilities [sample] hands to the multinomial draw:
    [exp(log(a) / temperature)], renormalised. *)
Definition tempered (a : list float) (temperature : float) : list float :=
  let a := map (λ x, np_div (np_log x) temperature) a in
  map (λ x, np_div (np_exp x) (np_sum (map np_exp a))) a.

(** A file the loader discards or skips: not an [npy] file, or fewer than
    [MIN_HITS] active cells in the pitch columns. *)
Definition filtered (file : string * ndarray) : Prop :=
  String.eqb (extension file.1) "npy" = false ∨
  count_active (restrict file.2 PITCHES) < MIN_HITS.

(** The calls of [generate] a trace records, oldest first, each with its
    file name, temperature and length. *)
Definition generate_calls (evs : list event) : list (formatted * float * nat) :=
  flat_map (λ e, match e with
                 | EvCall_generate mid_name temperature len => [(mid_name, temperature, len)]
                 | _ => []
                 end) evs.

(** The calls of [generate] a complete [run] makes. *)
Definition run_calls : list (formatted * float * nat) :=
  flat_map (λ temperature : Q,
              map (λ i, (Format "out{}_{}_{}.mid" [FInt 4096; FFloat temperature; FInt i],
                         float_of_Q (11 # 10)%Q, 4096%nat))
                  (xrange 5))
           [(7 # 10)%Q; (9 # 10)%Q; (11 # 10)%Q].

(** [m] adds to the recorded calls of [generate] a prefix of [cs], and all
    of [cs] when it returns normally. *)
Definition emits {A} (m : M A) (cs : list (formatted * float * nat)) : Prop :=
  ∀ w, ∃ pre, pre `prefix_of` cs ∧
              generate_calls (out (m w).2) = generate_calls (out w) ++ pre ∧
              (is_Ok (m w).1 → pre = cs).

End ProgramSpec.

(** ** Concrete collaborators and worlds *)

(** A test double for the collaborators, used to run the program on
    concrete worlds: floats are rationals on which [log], [exp] and the
    division do nothing, the random state is a counter [g] whose draw among
    [n] outcomes is outcome [g mod n], and the classifier answers the uniform
    distribution over [classes] classes. *)
Definition stub (classes : nat) : External := {|
  float := Q;
  float_of_Q := λ q, q;
  np_log := λ x, x;
  np_exp := λ x, x;
  np_div := λ x _, x;
  np_sum := λ _, (1 # 1)%Q;
  rng := nat;
  np_random_seed := Z.to_nat;
  np_random_multinomial := λ g _ pvals _,
    (Ok [<[(g `mod` length pvals)%nat := 1]> (replicate (length pvals) 0)], S g);
  model := unit;
  init_model := tt;
  load_weights := λ m _, m;
  predict := λ _ _, [replicate classes (1 # Pos.of_nat classes)%Q];
  midi := ndarray * formatted;
  array_to_midi := pair
|}.

(** A corpus of one directory: a recording of 40 time steps with a kick on
    every step and a snare on every other, a near-silent one, and a text
    file. *)
Definition demo_row (kick snare : Z) : list Z :=
  <[36%nat := kick]> (<[38%nat := snare]> (replicate 128 0)).

Definition demo_fs : list (string * list (string * ndarray)) :=
  [("/home/ubuntu/neural-beats/midi_arrays/"%string,
    [("beat.npy"%string,
      NdArray 128 (flat_map (λ _, [demo_row 100 0; demo_row 100 90]) (seq 0 20)));
     ("quiet.npy"%string, NdArray 128 [demo_row 100 0; demo_row 0 0]);
     ("notes.txt"%string, NdArray 0 [])])].

Definition demo_world : @world (stub 16) := @World (stub 16) demo_fs 0%nat [].

(** A corpus in which nothing passes the filter. *)
Definition silent_world : @world (stub 16) :=
  @World (stub 16)
    [("/home/ubuntu/neural-beats/midi_arrays/"%string,
      [("quiet.npy"%string, NdArray 128 [demo_row 100 0; demo_row 0 0]);
       ("notes.txt"%string, NdArray 0 [])])]
    0%nat [].

(** A file with exactly [MIN_HITS] = 8 active cells in the pitch columns. *)
Definition demo_file : string * ndarray :=
  ("beat.npy"%string,
   NdArray 128 [demo_row 100 90; demo_row 100 90; demo_row 100 90; demo_row 100 90]).

(** The event sequence of [demo_fs] and the seed [run] encodes. *)
Definition demo_sequence : list Z := flat_map (λ _, [8; 12]) (seq 0 20).

Definition demo_seed : list Z :=
  flat_map (λ _, [8; 0; 0; 0; 2; 0; 0; 0]) (seq 0 4).


(** A recording with 40 columns only: pitches 42 and 51 are missing. *)
Definition narrow_file : string * ndarray :=
  ("narrow.npy"%string, NdArray 40 [replicate 40 100; replicate 40 100]).

(** A recording that is loud everywhere but in the four pitch columns. *)
Definition other_drums_file : string * ndarray :=
  ("toms.npy"%string,
   NdArray 128 (replicate 16
     (<[36%nat := 0]> (<[38%nat := 0]> (<[42%nat := 0]> (<[51%nat := 0]>
        (replicate 128 100))))))).

(** A recording of a single time step. *)
Definition one_step_file : string * ndarray :=
  ("step.npy"%string, NdArray 128 [replicate 128 100]).

(** Seeds of 33 ids and of 3 ids, for a window of 32. *)
Definition long_seed : list Z := demo_seed ++ [0].

Definition short_seed : list Z := [8; 0; 2].

(** A configuration with nine pitches, one more than the codec accepts. *)
Definition wide : Config := {|
  PITCHES := [35; 36; 38; 42; 44; 46; 49; 51; 57];
  OUT_PITCHES := [35; 36; 38; 42; 44; 46; 49; 51; 57];
  PHRASE_LEN := 32;
  MIN_HITS := 8;
  MIDI_IN_DIR := "/home/ubuntu/neural-beats/midi_arrays/";
  MIDI_OUT_DIR := "/home/ubuntu/neural-beats/midi-out";
  MODEL_OUT_DIR := "/home/ubuntu/neural-beats/models";
  MODEL_NAME := "model"
|}.

(** The column numpy writes for pitch [p] among 128: [p] itself, or
    [p + 128] for a negative [p]. *)
Definition norm_pitch (p : Z) : nat :=
  if bool_decide (0 ≤ p) then Z.to_nat p else Z.to_nat (p + 128).

(** [scatter] for pitches that may be negative or repeated. *)
Definition scatter_any (pitches : list Z) (ar : list Z) (k : nat) : list Z :=
  foldl (λ acc i, <[norm_pitch (default 0 (pitches !! i)) := default 0 (ar !! i)]> acc)
        (replicate 128 0) (seq 0 k).
Arguments scatter_any : simpl never.

(** Whether a string holds a dot. *)
Fixpoint has_dot (s : string) : bool :=
  match s with
  | EmptyString => false
  | String c s' => Ascii.eqb c "."%char || has_dot s'
  end.

(** ** The collaborators in IEEE arithmetic *)

(** The arrays the network returns hold binary32 numbers.  They are modelled
    by the standard library's [spec_float] at precision 24 and maximal
    exponent 128, with its correctly rounded operations. *)
Definition f32 : Type := SpecFloat.spec_float.

Definition f32_round (m e : Z) : f32 := SpecFloat.binary_normalize 24 128 m e false.

Definition f32_add : f32 → f32 → f32 := SpecFloat.SFadd 24 128.
Definition f32_div : f32 → f32 → f32 := SpecFloat.SFdiv 24 128.

(** [log] and [exp] are computed in fixed point with 128 fractional bits,
    from the series of [atanh] and of [exp], and rounded once to binary32.
    The C library's [logf] and [expf], which numpy calls, may differ from
    these in the last place. *)
Definition fx_bits : Z := 128.
Definition fx_one : Z := 2 ^ fx_bits.
Definition fx_mul (a b : Z) : Z := Z.shiftr (a * b) fx_bits.

Fixpoint fx_atanh_series (terms : nat) (k : Z) (power z2 : Z) : Z :=
  match terms with
  | O => 0
  | S terms => power / k + fx_atanh_series terms (k + 2) (fx_mul power z2) z2
  end.

Definition fx_atanh (z : Z) : Z := fx_atanh_series 50 1 z (fx_mul z z).

Definition fx_ln2 : Z := 2 * fx_atanh (fx_one / 3).

(** [ln (m * 2^e)], with [m] scaled into [1, 2). *)
Definition fx_ln (m : positive) (e : Z) : Z :=
  let d := Z.log2 (Zpos m) in
  let y := Z.shiftl (Zpos m) (fx_bits - d) in
  (e + d) * fx_ln2 + 2 * fx_atanh ((y - fx_one) * fx_one / (y + fx_one)).

Fixpoint fx_exp_series (terms : nat) (k : Z) (term r : Z) : Z :=
  match terms with
  | O => 0
  | S terms => term + fx_exp_series terms (k + 1) (fx_mul term r / k) r
  end.

Definition f32_log (x : f32) : f32 :=
  match x with
  | SpecFloat.S754_nan => SpecFloat.S754_nan
  | SpecFloat.S754_zero _ => SpecFloat.S754_infinity true
  | SpecFloat.S754_infinity false => SpecFloat.S754_infinity false
  | SpecFloat.S754_infinity true => SpecFloat.S754_nan
  | SpecFloat.S754_finite true _ _ => SpecFloat.S754_nan
  | SpecFloat.S754_finite false m e => f32_round (fx_ln m e) (- fx_bits)
  end.

(** [exp v = 2^k * exp (v - k * ln 2)] with [k] the multiple of [ln 2]
    nearest to [v]; beyond [k = 400] the result is far out of range. *)
Definition f32_exp (x : f32) : f32 :=
  match x with
  | SpecFloat.S754_nan => SpecFloat.S754_nan
  | SpecFloat.S754_zero _ => f32_round 1 0
  | SpecFloat.S754_infinity false => SpecFloat.S754_infinity false
  | SpecFloat.S754_infinity true => SpecFloat.S754_zero false
  | SpecFloat.S754_finite s m e =>
      let v := Z.shiftl (if s then Zneg m else Zpos m) (e + fx_bits) in
      let k := (2 * v + fx_ln2) / (2 * fx_ln2) in
      if bool_decide (400 ≤ k) then SpecFloat.S754_infinity false
      else if bool_decide (k ≤ -400) then SpecFloat.S754_zero false
      else f32_round (fx_exp_series 40 1 fx_one (v - k * fx_ln2)) (k - fx_bits)
  end.

(** [np.sum] of a binary32 array: numpy adds fewer than eight numbers one
    after the other from 0, keeps eight running sums over a block of up to
    128, and halves longer arrays. *)
Definition f32_sum_block (a : list f32) : f32 :=
  let n := length a in
  let full := (n - n `mod` 8)%nat in
  let r := foldl (λ r i, zip_with f32_add r (take 8 (drop (8 * i) a)))
                 (take 8 a) (seq 1 (full / 8 - 1)) in
  let at_ i := default (SpecFloat.S754_zero false) (r !! i) in
  let res := f32_add (f32_add (f32_add (at_ 0%nat) (at_ 1%nat))
                              (f32_add (at_ 2%nat) (at_ 3%nat)))
                     (f32_add (f32_add (at_ 4%nat) (at_ 5%nat))
                              (f32_add (at_ 6%nat) (at_ 7%nat))) in
  foldl f32_add res (drop full a).

Fixpoint pairwise_sum (fuel : nat) (a : list f32) : f32 :=
  let n := length a in
  if bool_decide (n < 8)%nat then foldl f32_add (SpecFloat.S754_zero false) a
  else if bool_decide (n ≤ 128)%nat then f32_sum_block a
  else match fuel with
       | O => SpecFloat.S754_nan
       | S fuel =>
           let n2 := (n / 2 - (n / 2) `mod` 8)%nat in
           f32_add (pairwise_sum fuel (take n2 a)) (pairwise_sum fuel (drop n2 a))
       end.

Definition f32_sum (a : list f32) : f32 :=
  f32_add (SpecFloat.S754_zero false) (pairwise_sum (length a) a).

(** A Python float is a binary64 number; dividing a binary32 array by it
    rounds it to binary32 first. *)
Definition f32_of_Q (q : Q) : f32 :=
  match SpecFloat.SFdiv 53 1024 (SpecFloat.binary_normalize 53 1024 (Qnum q) 0 false)
                                   (SpecFloat.binary_normalize 53 1024 (Zpos (Qden q)) 0 false) with
  | SpecFloat.S754_finite s m e => SpecFloat.binary_normalize 24 128 (if s then Zneg m else Zpos m) e s
  | x => x
  end.

(** [np.random.multinomial] converts the probabilities to binary64 and
    refuses them when the compensated sum of all but the last exceeds
    [1.0 + 1e-12].  [kahan_sum darr n] is mtrand's function of that name: it
    starts from [darr[0]] and adds the entries 1 to [n - 1]. *)
Definition kahan_sum (darr : list SpecFloat.spec_float) (n : nat) : SpecFloat.spec_float :=
  match darr with
  | [] => SpecFloat.S754_zero false
  | d0 :: rest =>
      (foldl (λ '(sum, c) d,
                let y := SpecFloat.SFsub 53 1024 d c in
                let t := SpecFloat.SFadd 53 1024 sum y in
                (t, SpecFloat.SFsub 53 1024 (SpecFloat.SFsub 53 1024 t sum) y))
             (d0, SpecFloat.S754_zero false) (take (n - 1) rest)).1
  end.

Definition pvals_bound : SpecFloat.spec_float :=
  SpecFloat.SFadd 53 1024 (SpecFloat.binary_normalize 53 1024 1 0 false)
    (SpecFloat.SFdiv 53 1024 (SpecFloat.binary_normalize 53 1024 1 0 false)
                             (SpecFloat.binary_normalize 53 1024 (10 ^ 12) 0 false)).

(** The collaborators with binary32 arithmetic and a classifier that always
    answers [preds].  Which outcome a draw picks is not modelled: as in
    [stub] the random state is a counter [g] and the draw among [n] outcomes
    is outcome [g mod n]. *)
Definition binary32 (preds : list f32) : External := {|
  float := f32;
  float_of_Q := f32_of_Q;
  np_log := f32_log;
  np_exp := f32_exp;
  np_div := f32_div;
  np_sum := f32_sum;
  rng := nat;
  np_random_seed := Z.to_nat;
  np_random_multinomial := λ g _ pvals _,
    if SpecFloat.SFltb pvals_bound (kahan_sum pvals (length pvals - 1))
    then (Raise ValueError, g)
    else (Ok [<[(g `mod` length pvals)%nat := 1]> (replicate (length pvals) 0)], S g);
  model := unit;
  init_model := tt;
  load_weights := λ m _, m;
  predict := λ _ _, [preds];
  midi := ndarray * formatted;
  array_to_midi := pair
|}.

(** A prediction over the sixteen classes of four pitches: three classes at
    the binary32 number nearest to 1/3 and the others at 2^-40. *)
Definition thirds : list f32 :=
  replicate 3 (f32_div (f32_round 1 0) (f32_round 3 0)) ++ replicate 13 (f32_round 1 (-40)).

(** ** The enumeration of configurations *)

Lemma binary_digits_S P i :
  binary_digits (S P) i = binary_digits P (i `div` 2) ++ [i `mod` 2].
Proof.
  unfold binary_digits. rewrite seq_S, map_app. cbn [map Nat.add Nat.sub]. f_equal.
  - apply map_ext_in. intros j Hj%in_seq.
    replace (P - 0 - j)%nat with (S (P - 1 - j)) by lia.
    rewrite Nat2Z.inj_succ, <- Z.add_1_r.
    change 2 with (2 ^ 1). rewrite Z.div_pow2_bits by lia. done.
  - replace (P - 0 - P)%nat with 0%nat by lia.
    change (Z.of_nat 0) with 0. by rewrite Z.bit0_mod.
Qed.

Lemma length_binary_digits P i : length (binary_digits P i) = P.
Proof. unfold binary_digits. by rewrite length_map, length_seq. Qed.

Lemma binary_digits_inj P i j :
  0 ≤ i < 2 ^ Z.of_nat P → 0 ≤ j < 2 ^ Z.of_nat P →
  binary_digits P i = binary_digits P j → i = j.
Proof.
  revert i j. induction P as [|P IH]; intros i j Hi Hj Heq.
  - simpl in *. lia.
  - rewrite !binary_digits_S in Heq.
    apply app_inj_2 in Heq as [Hd Hm]; [|done].
    rewrite Nat2Z.inj_succ, Z.pow_succ_r in Hi, Hj by lia.
    assert (i `div` 2 = j `div` 2) as Hq.
    { apply IH; [| |done].
      - split; [apply Z.div_pos; lia|apply Z.div_lt_upper_bound; lia].
      - split; [apply Z.div_pos; lia|apply Z.div_lt_upper_bound; lia]. }
    injection Hm as Hm.
    rewrite (Z.div_mod i 2), (Z.div_mod j 2) by lia. congruence.
Qed.

Lemma length_product {A} (pool : list A) n :
  length (product pool n) = (length pool ^ n)%nat.
Proof.
  induction n as [|n IH]; [done|].
  cbn [product]. rewrite Nat.pow_succ_r', <- IH.
  generalize (product pool n). intros l.
  induction l as [|x l IHl]; cbn [flat_map]; [simpl; lia|].
  rewrite length_app, length_map, IHl. simpl. lia.
Qed.

Lemma flat_map_pair_lookup {A B} (f g : A → B) (l : list A) (i : nat) :
  flat_map (λ x, [f x; g x]) l !! i =
  (if Nat.even i then f else g) <$> l !! (i / 2)%nat.
Proof.
  revert i. induction l as [|x l IH]; intros i; [done|].
  destruct i as [|[|i]]; [done..|]. 
  change (flat_map _ (x :: l)) with (f x :: g x :: flat_map (λ x, [f x; g x]) l).
  simpl (_ !! _) at 1. rewrite IH.
  replace (S (S i)) with (i + 1 * 2)%nat by lia.
  rewrite Nat.div_add by lia. rewrite Nat.add_1_r. simpl.
  replace (i + 2)%nat with (S (S i)) by lia. done.
Qed.

Lemma product_binary_digits P i :
  0 ≤ i < 2 ^ Z.of_nat P →
  product [0; 1] P !! Z.to_nat i = Some (binary_digits P i).
Proof.
  revert i. induction P as [|P IH]; intros i Hi.
  - simpl in Hi. by replace i with 0 by lia.
  - rewrite Nat2Z.inj_succ, Z.pow_succ_r in Hi by lia.
    simpl. rewrite (flat_map_pair_lookup (λ x, x ++ [0]) (λ x, x ++ [1])).
    replace (Z.to_nat i / 2)%nat with (Z.to_nat (i `div` 2)).
    2:{ rewrite Z2Nat.inj_div by lia. done. }
    rewrite IH.
    2:{ split; [apply Z.div_pos; lia|apply Z.div_lt_upper_bound; lia]. }
    rewrite binary_digits_S. simpl. f_equal.
    destruct (Nat.even (Z.to_nat i)) eqn:He.
    + apply Nat.even_spec in He as [k Hk]. do 2 f_equal.
      replace i with (2 * Z.of_nat k) by lia.
      by rewrite Z.mul_comm, Z.mod_mul.
    + assert (Nat.odd (Z.to_nat i) = true) as [k Hk]%Nat.odd_spec.
      { by rewrite <- Nat.negb_even, He. }
      do 2 f_equal. replace i with (1 + Z.of_nat k * 2) by lia.
      by rewrite Z.mod_add.
Qed.

Lemma enumerate_snoc {A} (l : list A) x :
  enumerate (l ++ [x]) = enumerate l ++ [(Z.of_nat (length l), x)].
Proof.
  unfold enumerate. rewrite imap_app. simpl. by rewrite Nat.add_0_r.
Qed.

Lemma snoc_cases {A} (l : list A) : l = [] ∨ ∃ l' x, l = l' ++ [x].
Proof. induction l as [|x l _] using rev_ind; [by left|right; eauto]. Qed.

Lemma elem_of_product01 n (c : list Z) :
  length c = n → Forall (λ b, b = 0 ∨ b = 1) c → c ∈ product [0; 1] n.
Proof.
  revert c. induction n as [|n IH]; intros c Hlen Hc.
  - destruct c; [apply list_elem_of_here|done].
  - destruct (snoc_cases c) as [->|(c' & b & ->)]; [done|].
    rewrite length_app in Hlen.
    apply Forall_app in Hc as [Hc' Hb]. apply Forall_inv in Hb.
    cbn [product]. apply list_elem_of_In, in_flat_map. exists c'. split.
    + apply list_elem_of_In, IH; [|done]. cbn [length] in Hlen. lia.
    + destruct Hb as [Hb | Hb]; subst b; [left|right; left]; reflexivity.
Qed.

Lemma NoDup_product01 n : NoDup (product [0; 1] n).
Proof.
  apply NoDup_alt. intros i j c Hi Hj.
  pose proof (lookup_lt_Some _ _ _ Hi) as Hli.
  pose proof (lookup_lt_Some _ _ _ Hj) as Hlj.
  rewrite length_product in Hli, Hlj. simpl in Hli, Hlj.
  assert (Z.of_nat (2 ^ n) = 2 ^ Z.of_nat n) as Hpow.
  { rewrite Nat2Z.inj_pow. done. }
  rewrite <- (Nat2Z.id i) in Hi. rewrite <- (Nat2Z.id j) in Hj.
  rewrite product_binary_digits in Hi by lia.
  rewrite product_binary_digits in Hj by lia.
  assert (Z.of_nat i = Z.of_nat j); [|lia].
  apply (binary_digits_inj n); [lia..|congruence].
Qed.

(** The two dictionary comprehensions, read through the list they run over. *)
Lemma decodings_of_list (l : list (list Z)) (i : Z) :
  foldl (λ (d : gmap Z (list Z)) '(i, config), <[i := config]> d) ∅ (enumerate l) !! i
  = if bool_decide (0 ≤ i) then l !! Z.to_nat i else None.
Proof.
  induction l as [|x l IH] using rev_ind.
  - simpl. rewrite lookup_empty. by case_bool_decide.
  - rewrite enumerate_snoc, foldl_app. simpl. rewrite lookup_insert, IH.
    destruct (decide (Z.of_nat (length l) = i)) as [Hi|Hi].
    + subst i. rewrite bool_decide_true by lia.
      rewrite Nat2Z.id. by rewrite list_lookup_middle.
    + case_bool_decide; [|done].
      destruct (decide (Z.to_nat i < length l)%nat).
      * by rewrite lookup_app_l.
      * rewrite (lookup_ge_None_2 l) by lia.
        symmetry. apply lookup_ge_None_2. rewrite length_app. simpl. lia.
Qed.

Lemma encodings_of_list (l : list (list Z)) (c : list Z) (i : Z) :
  NoDup l →
  foldl (λ (d : gmap (list Z) Z) '(i, config), <[config := i]> d) ∅ (enumerate l) !! c
    = Some i
  ↔ 0 ≤ i ∧ l !! Z.to_nat i = Some c.
Proof.
  induction l as [|x l IH] using rev_ind; intros Hnd.
  - simpl. rewrite lookup_empty. split; [done|]. by intros [_ ?].
  - apply list.NoDup_app in Hnd as (Hnd & Hx & _).
    rewrite enumerate_snoc, foldl_app. simpl. rewrite lookup_insert.
    destruct (decide (x = c)) as [Hc|Hc].
    + subst c. split.
      * intros Heq. injection Heq as Heq. rewrite <- Heq.
        split; [lia|]. rewrite Nat2Z.id. by rewrite list_lookup_middle.
      * intros [Hi Hl]. f_equal.
        destruct (decide (Z.to_nat i < length l)%nat) as [Hlt|Hge].
        -- rewrite lookup_app_l in Hl by done.
           apply list_elem_of_lookup_2 in Hl. exfalso. apply (Hx x Hl), list_elem_of_here.
        -- apply lookup_lt_Some in Hl. rewrite length_app in Hl. simpl in Hl. lia.
    + rewrite IH by done. split; intros [Hi Hl]; split; try done.
      * rewrite lookup_app_l; [done|]. by eapply lookup_lt_Some.
      * destruct (decide (Z.to_nat i < length l)%nat) as [Hlt|Hge].
        -- by rewrite lookup_app_l in Hl.
        -- rewrite lookup_app_r in Hl by lia.
           destruct (Z.to_nat i - length l)%nat; simpl in Hl; [congruence|done].
Qed.

Lemma binary_digits_bits P i :
  Forall (λ b, b = 0 ∨ b = 1) (binary_digits P i).
Proof.
  unfold binary_digits. apply Forall_map, Forall_forall. intros j _.
  destruct (Z.testbit _ _); simpl; auto.
Qed.

(** ** The two tables *)

Section CodecFacts.
Context `{Config}.

Lemma num_classes_pow : Z.of_nat num_classes = 2 ^ Z.of_nat num_pitches.
Proof. unfold num_classes. by rewrite Nat2Z.inj_pow. Qed.

Lemma length_configurations : length configurations = num_classes.
Proof. unfold configurations. by rewrite length_product. Qed.

Lemma NoDup_configurations : NoDup configurations.
Proof. apply NoDup_product01. Qed.

Lemma configurations_lookup (i : Z) :
  0 ≤ i < Z.of_nat num_classes →
  configurations !! Z.to_nat i = Some (binary_digits num_pitches i).
Proof.
  intros Hi. apply product_binary_digits. by rewrite <- num_classes_pow.
Qed.

Lemma decodings_lookup (i : Z) :
  0 ≤ i < Z.of_nat num_classes →
  decodings !! i = Some (binary_digits num_pitches i).
Proof.
  intros Hi. unfold decodings. rewrite decodings_of_list.
  rewrite bool_decide_true by lia. by apply configurations_lookup.
Qed.

Lemma decodings_lookup_None (i : Z) :
  ¬ (0 ≤ i < Z.of_nat num_classes) → decodings !! i = None.
Proof.
  intros Hi. unfold decodings. rewrite decodings_of_list.
  case_bool_decide; [|done].
  apply lookup_ge_None_2. rewrite length_configurations. lia.
Qed.

Lemma encodings_lookup (c : list Z) (i : Z) :
  encodings !! c = Some i ↔
  0 ≤ i < Z.of_nat num_classes ∧ c = binary_digits num_pitches i.
Proof.
  unfold encodings.
  rewrite encodings_of_list by apply NoDup_configurations.
  split.
  - intros [Hi Hl]. pose proof (lookup_lt_Some _ _ _ Hl) as Hlt.
    rewrite length_configurations in Hlt.
    assert (0 ≤ i < Z.of_nat num_classes) as Hr by lia.
    split; [done|]. rewrite configurations_lookup in Hl by done. congruence.
  - intros [Hi ->]. split; [lia|]. by apply configurations_lookup.
Qed.

Lemma encodings_total (c : list Z) :
  length c = num_pitches → Forall (λ b, b = 0 ∨ b = 1) c →
  ∃ i, encodings !! c = Some i ∧ 0 ≤ i < Z.of_nat num_classes.
Proof.
  intros Hlen Hc.
  assert (c ∈ configurations) as Hin by by apply elem_of_product01.
  apply list_elem_of_lookup in Hin as [k Hk].
  pose proof (lookup_lt_Some _ _ _ Hk) as Hlt.
  rewrite length_configurations in Hlt.
  exists (Z.of_nat k). split; [|lia].
  unfold encodings. apply encodings_of_list; [apply NoDup_configurations|].
  split; [lia|]. by rewrite Nat2Z.id.
Qed.

End CodecFacts.

(** ** Comprehensions and loops that do not raise *)

Lemma mapM_result_Ok {A B} (f : A → result B) (g : A → B) (l : list A) :
  Forall (λ x, f x = Ok (g x)) l → mapM_result f l = Ok (map g l).
Proof.
  induction 1 as [|x l Hx _ IH]; [done|].
  cbn [mapM_result map]. rewrite Hx. cbn. rewrite IH. done.
Qed.

Lemma class_id_snoc (c : list Z) (b : Z) : class_id (c ++ [b]) = 2 * class_id c + b.
Proof. unfold class_id. by rewrite foldl_app. Qed.

Lemma class_id_range (c : list Z) :
  Forall (λ b, b = 0 ∨ b = 1) c → 0 ≤ class_id c < 2 ^ Z.of_nat (length c).
Proof.
  induction c as [|b c IH] using rev_ind; intros Hc.
  - cbn. lia.
  - apply Forall_app in Hc as [Hc Hb]. apply Forall_inv in Hb.
    specialize (IH Hc). rewrite class_id_snoc, length_app.
    cbn [length]. rewrite Nat.add_1_r, Nat2Z.inj_succ, Z.pow_succ_r by lia. lia.
Qed.

Lemma binary_digits_class_id (c : list Z) :
  Forall (λ b, b = 0 ∨ b = 1) c → binary_digits (length c) (class_id c) = c.
Proof.
  induction c as [|b c IH] using rev_ind; intros Hc; [done|].
  apply Forall_app in Hc as [Hc Hb]. apply Forall_inv in Hb.
  rewrite class_id_snoc, length_app. cbn [length]. rewrite Nat.add_1_r.
  rewrite binary_digits_S.
  replace ((2 * class_id c + b) `div` 2) with (class_id c).
  2:{ rewrite Z.mul_comm, Z.div_add_l by lia.
      rewrite (Z.div_small b 2) by lia. lia. }
  replace ((2 * class_id c + b) `mod` 2) with b.
  2:{ rewrite Z.add_comm, Z.mul_comm, Z.mod_add by lia.
      rewrite Z.mod_small; lia. }
  by rewrite IH.
Qed.

Lemma class_id_binary_digits P i :
  0 ≤ i < 2 ^ Z.of_nat P → class_id (binary_digits P i) = i.
Proof.
  intros Hi. apply (binary_digits_inj P); [|done|].
  - pose proof (class_id_range (binary_digits P i) (binary_digits_bits P i)) as Hr.
    by rewrite length_binary_digits in Hr.
  - pose proof (binary_digits_class_id (binary_digits P i) (binary_digits_bits P i)) as Hb.
    by rewrite length_binary_digits in Hb.
Qed.

Lemma threshold_bits (row : list Z) : Forall (λ b, b = 0 ∨ b = 1) (threshold row).
Proof.
  unfold threshold. apply Forall_map, Forall_forall. intros v _.
  case_bool_decide; cbn; [by right|by left].
Qed.

Lemma length_threshold (row : list Z) : length (threshold row) = length row.
Proof. unfold threshold. by rewrite length_map. Qed.

Lemma threshold_scale (c : list Z) :
  Forall (λ b, b = 0 ∨ b = 1) c → threshold (map (Z.mul velocity) c) = c.
Proof.
  unfold threshold, velocity. induction 1 as [|b c Hb _ IH]; [done|].
  cbn [map]. rewrite IH. f_equal.
  destruct Hb as [-> | ->]; done.
Qed.

Lemma scale_threshold (row : list Z) :
  map (Z.mul velocity) (threshold row)
  = map (λ v, if bool_decide (0 < v) then velocity else 0) row.
Proof.
  unfold threshold. rewrite map_map. apply map_ext. intros v.
  case_bool_decide; cbn; unfold velocity; lia.
Qed.

Lemma np_vstack_Ok (n : nat) (ls : list (list Z)) :
  ls ≠ [] → Forall (λ r, length r = n) ls → np_vstack ls = Ok (NdArray n ls).
Proof.
  intros Hne Hall. destruct ls as [|r ls]; [done|].
  pose proof (Forall_inv Hall) as Hr. cbn beta in Hr.
  unfold np_vstack. rewrite Hr.
  replace (forallb _ (r :: ls)) with true; [done|].
  symmetry. apply forallb_forall. intros r' Hin%list_elem_of_In.
  apply bool_decide_eq_true. by apply (proj1 (Forall_forall _ _) Hall).
Qed.

Section CodecCorrect.
Context `{Config}.

Lemma encode_row (row : list Z) :
  length row = num_pitches →
  dict_get encodings (threshold row) = Ok (class_id (threshold row)).
Proof.
  intros Hlen. unfold dict_get.
  assert (encodings !! threshold row = Some (class_id (threshold row))) as ->; [|done].
  apply encodings_lookup.
  pose proof (class_id_range _ (threshold_bits row)) as Hr.
  pose proof (binary_digits_class_id _ (threshold_bits row)) as Hb.
  rewrite length_threshold, Hlen in Hr, Hb.
  rewrite num_classes_pow. done.
Qed.

Lemma encode_Ok (a : ndarray) :
  wf_ndarray a → shape1 a = num_pitches →
  encode a = Ok (map (λ row, class_id (threshold row)) (rows a)).
Proof.
  intros Hwf Hcols. unfold encode. apply mapM_result_Ok.
  eapply Forall_impl; [exact Hwf|]. intros row Hrow. cbn beta in Hrow.
  apply encode_row. congruence.
Qed.

Lemma decode_Ok (ids : list Z) :
  ids ≠ [] → Forall (λ id, 0 ≤ id < Z.of_nat num_classes) ids →
  decode ids
  = Ok (NdArray num_pitches (map (λ id, map (Z.mul velocity) (binary_digits num_pitches id)) ids)).
Proof.
  intros Hne Hids. unfold decode.
  rewrite (mapM_result_Ok _ (binary_digits num_pitches)).
  2:{ eapply Forall_impl; [exact Hids|]. intros id Hid. cbn beta in Hid.
      unfold dict_get. by rewrite decodings_lookup. }
  cbn. rewrite (np_vstack_Ok num_pitches).
  - cbn. unfold np_scale. cbn. by rewrite map_map.
  - by destruct ids.
  - apply Forall_map, Forall_forall. intros id _. apply length_binary_digits.
Qed.

(** C8: the enumeration behind both tables holds every 0/1 vector of
    length P exactly once, the vector at position [i] is [i] written in
    binary on P digits with the last pitch as the lowest digit (so the last
    pitch varies fastest), and the tables map each vector to its position
    and back.  The tables are values of the embedding: nothing writes to
    them. *)
Theorem tables_binary_counting :
  length configurations = num_classes ∧
  NoDup configurations ∧
  (∀ c, c ∈ configurations ↔ length c = num_pitches ∧ Forall (λ b, b = 0 ∨ b = 1) c) ∧
  (∀ i, 0 ≤ i < Z.of_nat num_classes →
     configurations !! Z.to_nat i = Some (binary_digits num_pitches i) ∧
     encodings !! binary_digits num_pitches i = Some i ∧
     decodings !! i = Some (binary_digits num_pitches i)) ∧
  (∀ c i, encodings !! c = Some i ↔ 0 ≤ i ∧ configurations !! Z.to_nat i = Some c) ∧
  (∀ i c, decodings !! i = Some c ↔ 0 ≤ i ∧ configurations !! Z.to_nat i = Some c).
Proof.
  split; [apply length_configurations|].
  split; [apply NoDup_configurations|].
  split; [|split; [|split]].
  - intros c. split.
    + intros [k Hk]%list_elem_of_lookup.
      pose proof (lookup_lt_Some _ _ _ Hk) as Hlt.
      rewrite length_configurations in Hlt.
      rewrite <- (Nat2Z.id k), configurations_lookup in Hk by lia.
      injection Hk as <-. split; [apply length_binary_digits|apply binary_digits_bits].
    + intros [Hlen Hc]. by apply elem_of_product01.
  - intros i Hi. split; [by apply configurations_lookup|].
    split; [by apply encodings_lookup|by apply decodings_lookup].
  - intros c i. unfold encodings. apply encodings_of_list, NoDup_configurations.
  - intros i c. unfold decodings. rewrite decodings_of_list.
    case_bool_decide; [|split; [done|intros [? _]; lia]].
    split; [done|by intros [_ ?]].
Qed.

(** C1: the codec is a bijection between the 0/1 vectors of length P and
    [0, 2^P).  Encoding an array with P columns never fails and yields ids
    in range, and decoding them gives back the active/inactive pattern at
    velocity 120; decoding ids in range never fails and encoding the result
    gives the ids back; different ids decode to different rows. *)
Theorem codec_bijection :
  (∀ a, wf_ndarray a → shape1 a = num_pitches → rows a ≠ [] →
     ∃ ids, encode a = Ok ids ∧
            Forall (λ id, 0 ≤ id < Z.of_nat num_classes) ids ∧
            decode ids
            = Ok (NdArray num_pitches
                    (map (map (λ v, if bool_decide (0 < v) then 120 else 0)) (rows a)))) ∧
  (∀ ids, ids ≠ [] → Forall (λ id, 0 ≤ id < Z.of_nat num_classes) ids →
     ∃ a, decode ids = Ok a ∧ wf_ndarray a ∧ shape1 a = num_pitches ∧
          encode a = Ok ids) ∧
  (∀ id1 id2, 0 ≤ id1 < Z.of_nat num_classes → 0 ≤ id2 < Z.of_nat num_classes →
     id1 ≠ id2 →
     decodings !! id1 ≠ decodings !! id2 ∧ decode [id1] ≠ decode [id2]).
Proof.
  split; [|split].
  - intros a Hwf Hcols Hne. eexists. split; [by apply encode_Ok|].
    assert (Forall (λ id, 0 ≤ id < Z.of_nat num_classes)
              (map (λ row, class_id (threshold row)) (rows a))) as Hrange.
    { apply Forall_map. eapply Forall_impl; [exact Hwf|].
      intros row Hrow. cbn beta in Hrow |- *.
      pose proof (class_id_range _ (threshold_bits row)) as Hr.
      rewrite length_threshold, Hrow, Hcols in Hr. by rewrite num_classes_pow. }
    split; [done|].
    rewrite decode_Ok; [|by destruct (rows a)|done].
    do 2 f_equal. rewrite map_map.
    apply map_ext_Forall. eapply Forall_impl; [exact Hwf|].
    intros row Hrow. cbn beta in Hrow |- *.
    replace num_pitches with (length (threshold row))
      by (rewrite length_threshold; congruence).
    rewrite binary_digits_class_id by apply threshold_bits.
    apply scale_threshold.
  - intros ids Hne Hids. eexists. split; [by apply decode_Ok|].
    split; [|split; [done|]].
    + unfold wf_ndarray. cbn. apply Forall_map, Forall_forall. intros id _.
      cbn. by rewrite length_map, length_binary_digits.
    + rewrite encode_Ok.
      * cbn. f_equal. rewrite map_map.
        rewrite <- (map_id ids) at 2.
        apply map_ext_Forall. eapply Forall_impl; [exact Hids|].
        intros id Hid. cbn beta in Hid |- *.
        rewrite threshold_scale by apply binary_digits_bits.
        apply class_id_binary_digits. by rewrite <- num_classes_pow.
      * unfold wf_ndarray. cbn. apply Forall_map, Forall_forall. intros id _.
        cbn. by rewrite length_map, length_binary_digits.
      * done.
  - intros id1 id2 H1 H2 Hne.
    assert (binary_digits num_pitches id1 ≠ binary_digits num_pitches id2) as Hd.
    { intros Heq. apply Hne. apply (binary_digits_inj num_pitches); [| |done].
      - by rewrite <- num_classes_pow.
      - by rewrite <- num_classes_pow. }
    split.
    + rewrite !decodings_lookup by done. congruence.
    + rewrite !decode_Ok by (try done; by apply Forall_singleton).
      cbn. intros Heq. apply Hd.
      injection Heq as Heq.
      assert (Inj (=) (=) (Z.mul velocity)) as Hinj.
      { intros x y Hxy. unfold velocity in Hxy. lia. }
      by apply (inj (map (Z.mul velocity))) in Heq.
Qed.

End CodecCorrect.

(** ** Indexing and counting loops *)

Lemma np_index_Ok (n : nat) (i : Z) :
  0 ≤ i < Z.of_nat n → np_index n i = Ok (Z.to_nat i).
Proof. intros Hi. unfold np_index. by rewrite bool_decide_true. Qed.

Lemma np_index_nat (n k : nat) : (k < n)%nat → np_index n (Z.of_nat k) = Ok k.
Proof. intros Hk. rewrite np_index_Ok by lia. by rewrite Nat2Z.id. Qed.

Lemma getitem_Ok {A} (l : list A) (k : nat) (x : A) :
  l !! k = Some x → getitem l (Z.of_nat k) = Ok x.
Proof.
  intros Hk. unfold getitem.
  rewrite np_index_nat by (by eapply lookup_lt_Some). cbn. by rewrite Hk.
Qed.

Lemma np_update_Ok {A} (l : list A) (k : nat) (f : A → result A) (a a' : A) :
  l !! k = Some a → f a = Ok a' → np_update l (Z.of_nat k) f = Ok (<[k := a']> l).
Proof.
  intros Hk Hf. unfold np_update.
  rewrite np_index_nat by (by eapply lookup_lt_Some). cbn. rewrite Hk, Hf. done.
Qed.

Lemma xrange_S (k : nat) :
  xrange (Z.of_nat (S k)) = xrange (Z.of_nat k) ++ [Z.of_nat k].
Proof.
  unfold xrange, seqZ. rewrite !Nat2Z.id, seq_S, fmap_app. cbn.
  by rewrite Z.add_0_r.
Qed.

Lemma foldM_result_app {A St} (body : St → A → result St) (s : St) (l1 l2 : list A) :
  foldM_result body s (l1 ++ l2)
  = s' ← foldM_result body s l1; foldM_result body s' l2.
Proof.
  revert s. induction l1 as [|x l1 IH]; intros s; [done|].
  cbn. destruct (body s x) as [s'|e]; cbn; [apply IH|done].
Qed.

(** A [for i in xrange(n)] loop whose body keeps an invariant indexed by the
    number of iterations done runs to the end and establishes it at [n]. *)
Lemma foldM_result_xrange {St} (body : St → Z → result St) (Inv : nat → St → Prop)
    (s : St) (n : nat) :
  Inv 0%nat s →
  (∀ k s, (k < n)%nat → Inv k s → ∃ s', body s (Z.of_nat k) = Ok s' ∧ Inv (S k) s') →
  ∃ s', foldM_result body s (xrange (Z.of_nat n)) = Ok s' ∧ Inv n s'.
Proof.
  intros H0 Hstep. induction n as [|n IH].
  - exists s. done.
  - destruct IH as (s1 & Hrun & Hinv); [intros k s' Hk; apply Hstep; lia|].
    destruct (Hstep n s1) as (s2 & Hbody & Hinv2); [lia|done|].
    exists s2. rewrite xrange_S, foldM_result_app, Hrun. cbn. by rewrite Hbody.
Qed.

(** The same for a [for k, x in enumerate(l)] loop. *)
Lemma foldM_result_enumerate {A St} (body : St → Z * A → result St)
    (Inv : nat → St → Prop) (s : St) (l : list A) :
  Inv 0%nat s →
  (∀ k x s, l !! k = Some x → Inv k s →
     ∃ s', body s (Z.of_nat k, x) = Ok s' ∧ Inv (S k) s') →
  ∃ s', foldM_result body s (enumerate l) = Ok s' ∧ Inv (length l) s'.
Proof.
  intros H0 Hstep. induction l as [|x l IH] using rev_ind.
  - exists s. done.
  - destruct IH as (s1 & Hrun & Hinv).
    { intros k y s' Hk. apply Hstep. rewrite lookup_app_l; [done|].
      by eapply lookup_lt_Some. }
    destruct (Hstep (length l) x s1) as (s2 & Hbody & Hinv2);
      [by rewrite list_lookup_middle|done|].
    exists s2. rewrite enumerate_snoc, foldM_result_app, Hrun. cbn.
    rewrite Hbody. split; [done|]. rewrite length_app. cbn [length].
    by rewrite Nat.add_1_r.
Qed.

(** ** Unfolding adapter *)

Lemma scatter_S pitches ar k :
  scatter pitches ar (S k)
  = <[Z.to_nat (default 0 (pitches !! k)) := default 0 (ar !! k)]> (scatter pitches ar k).
Proof. unfold scatter. by rewrite seq_S, foldl_app. Qed.

Lemma length_scatter pitches ar k : length (scatter pitches ar k) = 128%nat.
Proof.
  induction k as [|k IH]; [done|]. by rewrite scatter_S, length_insert.
Qed.

Lemma scatter_hit pitches ar k i p :
  NoDup pitches → Forall (λ p, 0 ≤ p < 128) pitches →
  (k ≤ length pitches)%nat → (i < k)%nat → pitches !! i = Some p →
  scatter pitches ar k !! Z.to_nat p = Some (default 0 (ar !! i)).
Proof.
  intros Hnd Hr. induction k as [|k IH]; intros Hkl Hik Hi; [lia|].
  rewrite scatter_S.
  pose proof (proj1 (Forall_forall _ _) Hr p (list_elem_of_lookup_2 _ _ _ Hi)) as Hp.
  cbn beta in Hp.
  destruct (decide (i = k)) as [->|Hne].
  - rewrite Hi. cbn. apply list_lookup_insert_eq. rewrite length_scatter. lia.
  - destruct (pitches !! k) as [q|] eqn:Hk.
    + cbn. rewrite list_lookup_insert_ne; [apply IH; [lia|lia|done]|].
      pose proof (proj1 (Forall_forall _ _) Hr q (list_elem_of_lookup_2 _ _ _ Hk)) as Hq.
      cbn beta in Hq. intros Heq. apply Hne.
      eapply NoDup_lookup; [exact Hnd|exact Hi|].
      replace p with q by lia. done.
    + apply lookup_ge_None_1 in Hk. lia.
Qed.

Lemma scatter_miss pitches ar k (q : nat) :
  (k ≤ length pitches)%nat → Forall (λ p, 0 ≤ p < 128) pitches →
  (q < 128)%nat → Z.of_nat q ∉ pitches →
  scatter pitches ar k !! q = Some 0.
Proof.
  intros Hk Hr Hq Hnot. induction k as [|k IH].
  - unfold scatter. cbn [seq foldl]. by apply lookup_replicate_2.
  - rewrite scatter_S.
    destruct (pitches !! k) as [p|] eqn:Hpk; [|apply lookup_ge_None_1 in Hpk; lia].
    pose proof (proj1 (Forall_forall _ _) Hr p (list_elem_of_lookup_2 _ _ _ Hpk)) as Hp.
    cbn beta in Hp. cbn.
    rewrite list_lookup_insert_ne; [apply IH; lia|].
    intros Heq. apply Hnot. replace (Z.of_nat q) with p by lia.
    by eapply list_elem_of_lookup_2.
Qed.

Lemma zip_with_map_same {A B C D} (f : B → C → D) (g : A → B) (h : A → C) (l : list A) :
  zip_with f (map g l) (map h l) = map (λ x, f (g x) (h x)) l.
Proof. induction l as [|x l IH]; [done|]. cbn. by rewrite IH. Qed.

Lemma replicate_length_map {A B} (l : list A) (y : B) :
  replicate (length l) y = map (λ _, y) l.
Proof. induction l as [|x l IH]; [done|]. cbn. by rewrite IH. Qed.

Lemma unfold_Ok (a : ndarray) (pitches : list Z) :
  shape1 a = length pitches → Forall (λ p, 0 ≤ p < 128) pitches →
  unfold a pitches
  = Ok (NdArray 128 (map (λ ar, scatter pitches ar (length pitches)) (rows a))).
Proof.
  intros Hcols Hr. unfold unfold. rewrite bool_decide_true by done.
  edestruct (foldM_result_xrange
    (λ res i, p ← getitem pitches i; col ← np_get_col a i; np_set_col res p col)
    (λ k res, res = NdArray 128 (map (λ ar, scatter pitches ar k) (rows a))))
    as (res & Hrun & ->); [| |exact Hrun].
  - f_equal. unfold shape0. apply replicate_length_map.
  - intros k res Hk ->.
    destruct (pitches !! k) as [p|] eqn:Hpk; [|apply lookup_ge_None_1 in Hpk; lia].
    pose proof (proj1 (Forall_forall _ _) Hr p (list_elem_of_lookup_2 _ _ _ Hpk)) as Hp.
    cbn beta in Hp.
    rewrite (getitem_Ok _ _ _ Hpk). cbn.
    unfold np_get_col. rewrite np_index_nat by lia. cbn.
    unfold np_set_col. cbn [shape1 rows]. rewrite np_index_Ok by lia. cbn.
    eexists. split; [reflexivity|]. f_equal.
    rewrite zip_with_map_same. apply map_ext. intros ar.
    rewrite scatter_S, Hpk. done.
Qed.

(** C4: with one input column per pitch, and the pitches distinct slots of
    the 128, [unfold] returns a 128-column array of the same height whose
    column [pitches[i]] is input column [i] and whose other columns are
    zero; with a different column count the assertion fails. *)
Theorem unfold_columns (a : ndarray) (pitches : list Z) :
  (shape1 a = length pitches → NoDup pitches → Forall (λ p, 0 ≤ p < 128) pitches →
     ∃ res, unfold a pitches = Ok res ∧
            shape1 res = 128%nat ∧ wf_ndarray res ∧ shape0 res = shape0 a ∧
            (∀ i p, pitches !! i = Some p → column res (Z.to_nat p) = column a i) ∧
            (∀ q, (q < 128)%nat → Z.of_nat q ∉ pitches →
                  column res q = replicate (shape0 a) 0)) ∧
  (shape1 a ≠ length pitches → unfold a pitches = Raise AssertionError) ∧
  unfold (NdArray 4 [[1; 0; 1; 0]]) [36; 38; 42; 51]
  = Ok (NdArray 128 [<[36%nat := 1]> (<[42%nat := 1]> (replicate 128 0))]).
Proof.
  split; [|split].
  - intros Hcols Hnd Hr. eexists. split; [by apply unfold_Ok|].
    split; [done|]. split; [|split; [|split]].
    + unfold wf_ndarray. cbn. apply Forall_map, Forall_forall. intros ar _.
      apply length_scatter.
    + unfold shape0. cbn. by rewrite length_map.
    + intros i p Hi. unfold column. cbn [rows]. rewrite map_map.
      apply map_ext. intros ar.
      rewrite (scatter_hit pitches ar (length pitches) i p); try done.
      by eapply lookup_lt_Some.
    + intros q Hq Hnot. unfold column, shape0. cbn [rows]. rewrite map_map.
      rewrite replicate_length_map. apply map_ext. intros ar.
      by rewrite (scatter_miss pitches ar (length pitches) q).
  - intros Hne. unfold unfold. by rewrite bool_decide_false.
  - vm_compute. reflexivity.
Qed.

(** ** Writing one-hot rows into a zeroed array *)

Lemma lookup_frontier {A} (front : list A) (z : A) (rest : list A) (k : nat) :
  length front = k → (front ++ z :: rest) !! k = Some z.
Proof. intros <-. by apply list_lookup_middle. Qed.

Lemma insert_frontier {A} (front : list A) (z x : A) (rest : list A) (k : nat) :
  length front = k → <[k := x]> (front ++ z :: rest) = (front ++ [x]) ++ rest.
Proof.
  intros <-. rewrite insert_app_r_alt by lia. rewrite Nat.sub_diag. cbn.
  by rewrite <- app_assoc.
Qed.

Lemma set2_Ok {A} (a : list (list A)) (i : nat) (row : list A) (j : Z) (v : A) :
  a !! i = Some row → 0 ≤ j < Z.of_nat (length row) →
  set2 a (Z.of_nat i) j v = Ok (<[i := <[Z.to_nat j := v]> row]> a).
Proof.
  intros Hi Hj. unfold set2.
  destruct (row !! Z.to_nat j) as [x|] eqn:Hx;
    [|apply lookup_ge_None_1 in Hx; lia].
  apply (np_update_Ok _ _ _ row); [done|].
  rewrite <- (Z2Nat.id j) at 1 by lia.
  by apply (np_update_Ok _ _ _ x).
Qed.

Lemma set3_Ok {A} (a : list (list (list A))) (i j : nat) (plane : list (list A))
    (row : list A) (k : Z) (v : A) :
  a !! i = Some plane → plane !! j = Some row → 0 ≤ k < Z.of_nat (length row) →
  set3 a (Z.of_nat i) (Z.of_nat j) k v
  = Ok (<[i := <[j := <[Z.to_nat k := v]> row]> plane]> a).
Proof.
  intros Hi Hj Hk. unfold set3.
  apply (np_update_Ok _ _ _ plane); [done|]. by apply set2_Ok.
Qed.

(** The loops of lines 109-110 and 131-132: plane [i] of [X], all zeros
    before, gets one row per id with the entry at the id set to [v]. *)
Lemma set3_loop {A} (v zero : A) (X : list (list (list A))) (i : nat) (ids : list Z)
    (m C : nat) :
  X !! i = Some (replicate m (replicate C zero)) →
  (length ids ≤ m)%nat → Forall (λ id, 0 ≤ id < Z.of_nat C) ids →
  foldM_result (λ X '(j, cid), set3 X (Z.of_nat i) j cid v) X (enumerate ids)
  = Ok (<[i := map (λ id, <[Z.to_nat id := v]> (replicate C zero)) ids
               ++ replicate (m - length ids) (replicate C zero)]> X).
Proof.
  intros Hi Hlen Hids.
  set (f := λ id : Z, <[Z.to_nat id := v]> (replicate C zero)).
  edestruct (foldM_result_enumerate
    (λ X '(j, cid), set3 X (Z.of_nat i) j cid v)
    (λ k X', (k ≤ length ids)%nat ∧
             X' = <[i := map f (take k ids) ++ replicate (m - k) (replicate C zero)]> X)
    X ids) as (X' & Hrun & _ & ->).
  - split; [lia|]. cbn. rewrite Nat.sub_0_r. by rewrite list_insert_id.
  - intros k cid X' Hk [_ ->].
    pose proof (lookup_lt_Some _ _ _ Hk) as Hklt.
    pose proof (lookup_lt_Some _ _ _ Hi) as Hilt.
    pose proof (proj1 (Forall_forall _ _) Hids cid (list_elem_of_lookup_2 _ _ _ Hk)) as Hc.
    cbn beta in Hc.
    assert (length (map f (take k ids)) = k) as Hfront.
    { rewrite length_map, length_take. lia. }
    replace (m - k)%nat with (S (m - S k)) by lia. cbn [replicate].
    eexists. split.
    + eapply set3_Ok.
      * by apply list_lookup_insert_eq.
      * by apply lookup_frontier.
      * by rewrite length_replicate.
    + split; [lia|]. rewrite list_insert_insert_eq. f_equal.
      rewrite insert_frontier by done.
      rewrite (take_S_r _ _ _ Hk), map_app. done.
  - rewrite Hrun. by rewrite firstn_all.
Qed.

Lemma b2z_one_hot (C : nat) (c : Z) :
  map Z.b2z (<[Z.to_nat c := true]> (replicate C false)) = one_hot C c.
Proof.
  unfold one_hot. change (map Z.b2z ?l) with (Z.b2z <$> l).
  by rewrite list_fmap_insert, fmap_replicate.
Qed.

Lemma slice_window {A} (l : list A) (i w : nat) :
  slice l (Z.of_nat i) (Z.of_nat i + Z.of_nat w) = take w (drop i l).
Proof.
  unfold slice. rewrite <- Nat2Z.inj_add, !Nat2Z.id. by rewrite take_drop_commute.
Qed.

Lemma length_window {A} (l : list A) (i w : nat) :
  (i + w ≤ length l)%nat → length (take w (drop i l)) = w.
Proof. intros Hle. rewrite length_take, length_drop. lia. Qed.

(** ** Dataset builder: the labelled examples *)

Section Examples.
Context `{Config}.

Lemma construct_examples_Ok (config_seq : list Z) :
  Forall (λ id, 0 ≤ id < Z.of_nat num_classes) config_seq →
  (PHRASE_LEN ≤ length config_seq)%nat →
  construct_examples config_seq
  = Ok (map (window_one_hot config_seq) (seq 0 (length config_seq - PHRASE_LEN)),
        map (label_one_hot config_seq) (seq 0 (length config_seq - PHRASE_LEN))).
Proof.
  intros Hids Hlen. unfold construct_examples.
  set (n := (length config_seq - PHRASE_LEN)%nat).
  replace (Z.of_nat (length config_seq) - Z.of_nat PHRASE_LEN) with (Z.of_nat n) by lia.
  unfold np_zeros3, np_zeros2. rewrite !bool_decide_false by lia. cbn.
  rewrite Nat2Z.id.
  set (zrow := replicate num_classes false).
  set (zplane := replicate PHRASE_LEN zrow).
  set (FX := λ i : nat, map (λ id, <[Z.to_nat id := true]> zrow)
                          (take PHRASE_LEN (drop i config_seq))).
  set (Fy := λ i : nat, <[Z.to_nat (default 0 (config_seq !! (i + PHRASE_LEN)%nat)) := true]> zrow).
  match goal with
  | |- context [foldM_result ?body ?s (xrange _)] =>
      destruct (foldM_result_xrange body
        (λ k Xy, Xy.1 = map FX (seq 0 k) ++ replicate (n - k) zplane ∧
                 Xy.2 = map Fy (seq 0 k) ++ replicate (n - k) zrow) s n)
        as ([X y] & Hrun & HX & Hy)
  end.
  - cbn. by rewrite Nat.sub_0_r.
  - intros k [X y] Hk [HX Hy]. cbn [fst snd] in HX, Hy. subst X y.
    assert (length (map FX (seq 0 k)) = k) as HfX by by rewrite length_map, length_seq.
    assert (length (map Fy (seq 0 k)) = k) as Hfy by by rewrite length_map, length_seq.
    destruct (config_seq !! (k + PHRASE_LEN)%nat) as [label|] eqn:Hlabel;
      [|apply lookup_ge_None_1 in Hlabel; lia].
    pose proof (proj1 (Forall_forall _ _) Hids label
                  (list_elem_of_lookup_2 _ _ _ Hlabel)) as Hl. cbn beta in Hl.
    replace (n - k)%nat with (S (n - S k)) by lia. cbn [replicate].
    eexists. split.
    { rewrite slice_window.
    rewrite (set3_loop true false _ k _ PHRASE_LEN num_classes).
      2:{ by apply lookup_frontier. }
      2:{ rewrite length_window; lia. }
      2:{ apply Forall_take, Forall_drop. done. }
      cbn. rewrite <- Nat2Z.inj_add.
      rewrite (getitem_Ok _ _ _ Hlabel). cbn.
      rewrite (set2_Ok _ k zrow);
        [|by apply lookup_frontier|by unfold zrow; rewrite length_replicate].
      cbn. reflexivity. }
    cbn [fst snd].
    rewrite !insert_frontier by done.
    rewrite length_window by lia. rewrite Nat.sub_diag, app_nil_r.
    rewrite seq_S, !map_app. cbn [map].
    split; [done|]. do 2 f_equal. unfold Fy. cbn [Nat.add]. by rewrite Hlabel.
  - rewrite Hrun. cbn in HX, Hy |- *. subst X y.
    rewrite Nat.sub_diag. cbn [replicate]. rewrite !app_nil_r.
    f_equal. f_equal.
    + rewrite map_map. apply map_ext. intros i. unfold FX, window_one_hot.
      rewrite !map_map. apply map_ext. intros id. apply b2z_one_hot.
    + rewrite map_map. apply map_ext. intros i. unfold Fy, label_one_hot.
      apply b2z_one_hot.
Qed.

Lemma construct_examples_short (config_seq : list Z) :
  (length config_seq < PHRASE_LEN)%nat →
  construct_examples config_seq = Raise ValueError.
Proof.
  intros Hlen. unfold construct_examples, np_zeros3.
  by rewrite bool_decide_true by lia.
Qed.


(** C2 (amended): an event sequence of length L >= PHRASE_LEN, with its ids
    in range, yields exactly L - PHRASE_LEN examples; example [i] is the
    window of PHRASE_LEN ids from position [i], one one-hot row each, with
    the one-hot row of the id at [i + PHRASE_LEN] as its label.  A shorter
    sequence yields none: the allocation of the example array raises. *)
Theorem examples_of_sequence (config_seq : list Z) :
  (Forall (λ id, 0 ≤ id < Z.of_nat num_classes) config_seq →
   (PHRASE_LEN ≤ length config_seq)%nat →
   ∃ X y, construct_examples config_seq = Ok (X, y) ∧
          length X = (length config_seq - PHRASE_LEN)%nat ∧
          length y = (length config_seq - PHRASE_LEN)%nat ∧
          ∀ i, (i < length config_seq - PHRASE_LEN)%nat →
               X !! i = Some (window_one_hot config_seq i) ∧
               length (window_one_hot config_seq i) = PHRASE_LEN ∧
               y !! i = Some (label_one_hot config_seq i)) ∧
  ((length config_seq < PHRASE_LEN)%nat →
   construct_examples config_seq = Raise ValueError).
Proof.
  split; [|apply construct_examples_short].
  intros Hids Hlen. do 2 eexists. split; [by apply construct_examples_Ok|].
  rewrite !length_map, !length_seq. split; [done|]. split; [done|].
  intros i Hi. change (map ?f ?l) with (f <$> l).
  rewrite !list_lookup_fmap, !lookup_seq_lt by done. cbn.
  split; [done|]. split; [|done].
  unfold window_one_hot. rewrite length_map. apply length_window. lia.
Qed.

End Examples.

(** ** Dataset builder: the event sequence *)

Lemma np_take_cols_Ok (a : ndarray) (cols : list Z) :
  Forall (λ p, 0 ≤ p < Z.of_nat (shape1 a)) cols →
  np_take_cols a cols = Ok (restrict a cols).
Proof.
  intros Hcols. unfold np_take_cols, restrict.
  destruct (rows a) as [|r0 rs] eqn:Hrows; [done|].
  rewrite (mapM_result_Ok _ Z.to_nat).
  - cbn. do 3 f_equal; [by rewrite map_map|]. apply map_ext. intros r.
    by rewrite map_map.
  - eapply Forall_impl; [exact Hcols|]. intros p Hp. by apply np_index_Ok.
Qed.

Lemma wf_restrict (a : ndarray) (cols : list Z) : wf_ndarray (restrict a cols).
Proof.
  unfold wf_ndarray, restrict. cbn. apply Forall_map, Forall_forall.
  intros r _. cbn. by rewrite length_map.
Qed.

Section Loader.
Context `{Config} `{External}.

Lemma load_file_run (root : string) (config_seq : list Z) (file : string * ndarray)
    (w : world) :
  (String.eqb (extension file.1) "npy" = true → readable file) →
  load_file root config_seq file w
  = (Ok (config_seq ++ contribution file),
     World (fs w) (gen w) (out w ++ load_events root file)).
Proof.
  intros Hread. unfold load_file, contribution, load_events.
  destruct (String.eqb (extension file.1) "npy") eqn:Hext; cbn [negb].
  - specialize (Hread eq_refl). unfold readable in Hread.
    unfold bind, np_load, emit, ret, lift. cbn.
    rewrite np_take_cols_Ok by done. cbn.
    case_bool_decide as Hcount.
    + rewrite app_nil_r, <- app_assoc. done.
    + rewrite encode_Ok; [|apply wf_restrict|done].
      rewrite <- app_assoc. done.
  - unfold ret. rewrite !app_nil_r. by destruct w.
Qed.

Lemma load_files_run (root : string) (files : list (string * ndarray))
    (config_seq : list Z) (w : world) :
  Forall (λ file, String.eqb (extension file.1) "npy" = true → readable file) files →
  foldM (load_file root) config_seq files w
  = (Ok (config_seq ++ flat_map contribution files),
     World (fs w) (gen w) (out w ++ flat_map (load_events root) files)).
Proof.
  intros Hfiles. revert config_seq w.
  induction Hfiles as [|file files Hfile _ IH]; intros config_seq w.
  - cbn. unfold ret. rewrite !app_nil_r. by destruct w.
  - cbn [foldM flat_map]. unfold bind. rewrite load_file_run by done.
    rewrite IH. cbn. by rewrite <- !app_assoc.
Qed.

Lemma load_dirs_run (tree : list (string * list (string * ndarray)))
    (config_seq : list Z) (w : world) :
  corpus_readable tree →
  foldM (λ config_seq '(root, files), foldM (load_file root) config_seq files)
        config_seq tree w
  = (Ok (config_seq ++ event_sequence tree),
     World (fs w) (gen w) (out w ++ corpus_events tree)).
Proof.
  intros Htree. revert config_seq w.
  induction Htree as [|[root files] tree Hdir _ IH]; intros config_seq w.
  - cbn. unfold ret. rewrite !app_nil_r. by destruct w.
  - cbn [foldM]. unfold bind at 1. rewrite load_files_run by done.
    rewrite IH. unfold event_sequence, corpus_events. cbn.
    by rewrite <- !app_assoc.
Qed.

Lemma load_config_seq_run (w : world) :
  corpus_readable (fs w) →
  load_config_seq w
  = (Ok (event_sequence (fs w)),
     World (fs w) (gen w) (out w ++ EvWalk MIDI_IN_DIR :: corpus_events (fs w))).
Proof.
  intros Htree. unfold load_config_seq, os_walk, bind, emit. cbn.
  rewrite load_dirs_run by done. cbn. by rewrite <- app_assoc.
Qed.

Lemma contribution_range (file : string * ndarray) :
  Forall (λ id, 0 ≤ id < Z.of_nat num_classes) (contribution file).
Proof.
  unfold contribution. destruct (negb _); [done|].
  case_bool_decide; [done|].
  apply Forall_map. eapply Forall_impl; [apply wf_restrict|].
  intros row Hrow. cbn beta in Hrow |- *.
  pose proof (class_id_range _ (threshold_bits row)) as Hr.
  rewrite length_threshold, Hrow in Hr. by rewrite num_classes_pow.
Qed.

Lemma event_sequence_range (tree : list (string * list (string * ndarray))) :
  Forall (λ id, 0 ≤ id < Z.of_nat num_classes) (event_sequence tree).
Proof.
  unfold event_sequence. apply Forall_flat_map, Forall_forall. intros dir _.
  apply Forall_flat_map, Forall_forall. intros file _. apply contribution_range.
Qed.

(** C6: an [npy] file with fewer than MIN_HITS active cells in the pitch
    columns leaves the event sequence as it was; one with MIN_HITS or more
    appends one class id per row of the file, at the end.  Over a whole
    corpus the event sequence is the contributions of the files joined in
    the order they are visited. *)
Theorem min_hits_filter :
  (∀ root file config_seq w,
     String.eqb (extension file.1) "npy" = true → readable file →
     ∃ w',
       (count_active (restrict file.2 PITCHES) < MIN_HITS →
        load_file root config_seq file w = (Ok config_seq, w')) ∧
       (MIN_HITS ≤ count_active (restrict file.2 PITCHES) →
        ∃ ids, load_file root config_seq file w = (Ok (config_seq ++ ids), w') ∧
               length ids = shape0 file.2 ∧
               encode (restrict file.2 PITCHES) = Ok ids ∧
               Forall (λ id, 0 ≤ id < Z.of_nat num_classes) ids)) ∧
  (∀ w, corpus_readable (fs w) →
     ∃ w', load_config_seq w = (Ok (event_sequence (fs w)), w')).
Proof.
  split.
  - intros root file config_seq w Hext Hread. eexists. split.
    + intros Hlow. rewrite load_file_run by done.
      unfold contribution. rewrite Hext. cbn [negb].
      rewrite bool_decide_true by done. by rewrite app_nil_r.
    + intros Hhigh. eexists. split; [|split; [|split]].
      * rewrite load_file_run by done. reflexivity.
      * unfold contribution. rewrite Hext. cbn [negb].
        rewrite bool_decide_false by lia.
        unfold restrict, shape0. cbn. by rewrite !length_map.
      * unfold contribution. rewrite Hext. cbn [negb].
        rewrite bool_decide_false by lia.
        apply encode_Ok; [apply wf_restrict|done].
      * apply contribution_range.
  - intros w Htree. eexists. by apply load_config_seq_run.
Qed.

End Loader.

(** ** Sampler *)

Lemma argmax_from_range (best besti i : Z) (l : list Z) :
  0 ≤ besti < i →
  0 ≤ argmax_from best besti i l < i + Z.of_nat (length l).
Proof.
  revert best besti i. induction l as [|x l IH]; intros best besti i Hb.
  - cbn. lia.
  - cbn [argmax_from length]. case_bool_decide.
    + specialize (IH x i (i + 1)). lia.
    + specialize (IH best besti (i + 1)). lia.
Qed.

Lemma np_argmax_range (l : list Z) :
  l ≠ [] → ∃ k, np_argmax l = Ok k ∧ 0 ≤ k < Z.of_nat (length l).
Proof.
  intros Hne. destruct l as [|x l]; [done|].
  eexists. split; [reflexivity|].
  pose proof (argmax_from_range x 0 1 l). cbn [length]. lia.
Qed.

Lemma repeatM_S_r `{External} {St} (n : nat) (body : St → M St) (s : St) (w : world) :
  repeatM (S n) body s w
  = match repeatM n body s w with
    | (Ok s', w') => body s' w'
    | (Raise e, w') => (Raise e, w')
    end.
Proof.
  revert s w. induction n as [|n IH]; intros s w.
  - cbn. unfold bind, ret. by destruct (body s w) as [[s'|e] w'].
  - change (repeatM (S (S n)) body s w) with (bind (body s) (repeatM (S n) body) w).
    change (repeatM (S n) body s w) with (bind (body s) (repeatM n body) w).
    unfold bind. destruct (body s w) as [[s'|e] w']; [apply IH|done].
Qed.

(** ** Generator *)

Section Generator.
Context `{Config} `{External}.

Hypothesis predict_shape : predict_contract.
Hypothesis multinomial_shape : multinomial_contract.

Lemma num_classes_pos : (0 < num_classes)%nat.
Proof. unfold num_classes. generalize num_pitches. intros n. induction n; cbn; lia. Qed.

Lemma sample_run (a : list float) (temperature : float) (w : world) :
  a ≠ [] →
  ∃ id g', sample a temperature w = (Ok id, World (fs w) g' (out w)) ∧
           0 ≤ id < Z.of_nat (length a).
Proof using multinomial_shape.
  intros Hne. unfold sample, bind, multinomial, lift.
  match goal with
  | |- context [np_random_multinomial _ _ ?pvals _] =>
      destruct (multinomial_shape (gen w) pvals) as (counts & g' & -> & Hlen)
  end.
  rewrite !length_map in Hlen. cbn [concat]. rewrite app_nil_r.
  destruct (np_argmax_range counts) as (k & -> & Hk).
  { destruct counts; [|done]. destruct a; [done|]. cbn in Hlen. lia. }
  exists k, g'. split; [done|lia].
Qed.

Lemma one_hot_phrase_Ok (phrase : list Z) :
  length phrase = PHRASE_LEN →
  Forall (λ id, 0 ≤ id < Z.of_nat num_classes) phrase →
  one_hot_phrase phrase = Ok [map (one_hot num_classes) phrase].
Proof.
  intros Hlen Hids. unfold one_hot_phrase, np_zeros3.
  rewrite bool_decide_false by lia. cbn [mbind result_bind].
  change (Z.to_nat 1) with 1%nat. cbn [replicate].
  rewrite (set3_loop 1 0 _ 0 phrase PHRASE_LEN num_classes); [|done|lia|done].
  rewrite Hlen, Nat.sub_diag. cbn [replicate]. rewrite app_nil_r. done.
Qed.

Lemma generate_step_run (m : model) (temperature : float) (generated phrase : list Z)
    (w : world) :
  length phrase = PHRASE_LEN →
  Forall (λ id, 0 ≤ id < Z.of_nat num_classes) phrase →
  ∃ next g',
    generate_step m temperature (generated, phrase) w
    = (Ok (generated ++ [next], drop 1 phrase ++ [next]), World (fs w) g' (out w)) ∧
    0 ≤ next < Z.of_nat num_classes.
Proof using predict_shape multinomial_shape.
  intros Hlen Hids. unfold generate_step, bind, lift, ret.
  rewrite one_hot_phrase_Ok by done.
  destruct (predict_shape m [map (one_hot num_classes) phrase])
    as (preds & rest & -> & Hpreds).
  rewrite (getitem_Ok _ 0 preds) by done.
  destruct (sample_run preds temperature w) as (next & g' & -> & Hnext).
  { destruct preds; [|done]. pose proof num_classes_pos. cbn in Hpreds. lia. }
  exists next, g'. split; [|lia].
  unfold slice. rewrite Nat2Z.id, firstn_all. done.
Qed.

(** The loop of lines 129-137 after [k] iterations. *)
Lemma generate_loop_run (m : model) (seed : list Z) (temperature : float) (k : nat)
    (w : world) :
  (0 < PHRASE_LEN)%nat → length seed = PHRASE_LEN →
  Forall (λ id, 0 ≤ id < Z.of_nat num_classes) seed →
  ∃ generated g',
    generate_loop m seed temperature k w
    = (Ok (generated, drop k (seed ++ generated)), World (fs w) g' (out w)) ∧
    length generated = k ∧
    Forall (λ id, 0 ≤ id < Z.of_nat num_classes) generated.
Proof using predict_shape multinomial_shape.
  intros Hpos Hlen Hseed. unfold generate_loop. induction k as [|k IH].
  - exists [], (gen w). cbn. unfold ret. rewrite app_nil_r. by destruct w.
  - destruct IH as (generated & g1 & Hrun & Hgen & Hrange).
    rewrite repeatM_S_r, Hrun.
    destruct (generate_step_run m temperature generated
                (drop k (seed ++ generated)) (World (fs w) g1 (out w)))
      as (next & g' & Hstep & Hnext).
    { rewrite length_drop, length_app. lia. }
    { apply Forall_drop, Forall_app. done. }
    rewrite Hstep. cbn [fs out].
    exists (generated ++ [next]), g'. split; [|split].
    + do 3 f_equal. rewrite drop_drop, app_assoc.
      rewrite (drop_app_le (seed ++ generated)) by (rewrite length_app; lia).
      by rewrite Nat.add_1_r.
    + rewrite length_app. cbn. lia.
    + apply Forall_app. split; [done|]. by apply Forall_singleton.
Qed.


(** [generate] as a whole returns, for a positive length and output pitches
    that are one slot of the 128 per modelled pitch. *)
Lemma generate_run (m : model) (seed : list Z) (mid_name : formatted)
    (temperature : float) (len : nat) (w : world) :
  (0 < PHRASE_LEN)%nat → length seed = PHRASE_LEN →
  Forall (λ id, 0 ≤ id < Z.of_nat num_classes) seed →
  (0 < len)%nat →
  length OUT_PITCHES = num_pitches → Forall (λ p, 0 ≤ p < 128) OUT_PITCHES →
  ∃ mid w', generate m seed mid_name temperature len w = (Ok mid, w').
Proof using predict_shape multinomial_shape.
  intros Hpos Hlen Hseed Hlenpos Hout Hrange.
  unfold generate, bind, emit, lift, ret. cbn [fs gen out].
  rewrite decode_Ok; [|by destruct seed; [cbn in Hlen; lia|]|done].
  destruct (generate_loop_run m seed temperature len
              (World (fs w) (gen w)
                 ((out w ++ [EvCall_generate mid_name temperature len]) ++
                  [EvPrintArray (NdArray num_pitches
                     (map (λ id, map (Z.mul velocity) (binary_digits num_pitches id)) seed))])))
    as (generated & g' & Hrun & Hgen & Hgr); [done..|].
  rewrite Hrun. cbn [fst snd fs gen out].
  rewrite decode_Ok; [|by destruct generated; [cbn in Hgen; lia|]|done].
  rewrite unfold_Ok; [|by cbn|done].
  by do 2 eexists.
Qed.

Lemma forM__Ok {A} (l : list A) (body : A → M unit) :
  (∀ x w, ∃ w', body x w = (Ok tt, w')) → ∀ w, ∃ w', forM_ l body w = (Ok tt, w').
Proof.
  intros Hbody. induction l as [|x l IH]; intros w.
  - by exists w.
  - cbn [forM_]. unfold bind. destruct (Hbody x w) as (w1 & ->). apply IH.
Qed.

Lemma run_seed_Ok :
  ∃ seed_rows, run_seed = Ok (NdArray 4 seed_rows) ∧
               length seed_rows = 32%nat ∧ Forall (λ r, length r = 4%nat) seed_rows.
Proof.
  eexists. split; [vm_compute; reflexivity|]. split; [reflexivity|].
  repeat constructor.
Qed.

(** [run] returns when the corpus holds at least one window of events, the
    window is the 32 steps and the pitches the 4 columns of the seed built in
    [run], and the output pitches are 4 slots of the 128. *)
Lemma run_returns (w : world) :
  PHRASE_LEN = 32%nat → length PITCHES = 4%nat →
  length OUT_PITCHES = 4%nat → Forall (λ p, 0 ≤ p < 128) OUT_PITCHES →
  corpus_readable (fs w) →
  (PHRASE_LEN ≤ length (event_sequence (fs w)))%nat →
  ∃ w', run w = (Ok tt, w').
Proof using predict_shape multinomial_shape.
  intros Hphrase Hpitches Hout Hrange Hread Hlong.
  unfold run, prepare_data, bind at 1 2 3.
  rewrite load_config_seq_run by done. unfold lift at 1.
  rewrite construct_examples_Ok by (done || apply event_sequence_range).
  unfold ret at 1. unfold bind at 1. unfold emit at 1. cbn [fs gen out].
  destruct run_seed_Ok as (seed_rows & -> & Hrows & Hcols).
  unfold bind at 1. unfold lift at 1.
  apply forM__Ok. intros temperature w1. apply forM__Ok. intros i w2.
  unfold bind at 1. unfold lift at 1.
  rewrite encode_Ok; [|done|done]. cbn [rows].
  unfold bind. 
  match goal with
  | |- context [generate ?m ?s ?n ?t ?l ?w] =>
      destruct (generate_run m s n t l w) as (mid & w3 & ->)
  end.
  - lia.
  - rewrite length_map. lia.
  - apply Forall_map. eapply Forall_impl; [exact Hcols|]. intros row Hrow.
    cbn beta in Hrow |- *.
    pose proof (class_id_range _ (threshold_bits row)) as Hr.
    rewrite length_threshold, Hrow in Hr. rewrite num_classes_pow.
    unfold num_pitches. by rewrite Hpitches.
  - lia.
  - unfold num_pitches. congruence.
  - done.
  - unfold ret. by eexists.
Qed.

End Generator.

(** ** Sampler: the draw may fail *)

Section SamplerRange.
Context `{Config} `{External}.

Hypothesis predict_shape : predict_contract.
Hypothesis draw_shape : draw_contract.

(** [sample] is its one draw followed by [argmax]: it returns when the draw
    does, and raises what the draw raises. *)
Lemma sample_cases (a : list float) (temperature : float) (w : world) :
  a ≠ [] →
  match np_random_multinomial (gen w) 1 (tempered a temperature) 1 with
  | (Ok counts, g') =>
      ∃ id, np_argmax (concat counts) = Ok id ∧
            sample a temperature w = (Ok id, World (fs w) g' (out w)) ∧
            0 ≤ id < Z.of_nat (length a)
  | (Raise e, g') => sample a temperature w = (Raise e, World (fs w) g' (out w))
  end.
Proof using draw_shape.
  intros Hne. unfold sample, bind, multinomial, lift, tempered.
  destruct (np_random_multinomial _ _ _ _) as [[r|e] g'] eqn:Hdraw; [|done].
  destruct (draw_shape _ _ _ _ Hdraw) as (counts & -> & Hlen).
  rewrite !length_map in Hlen. cbn [concat]. rewrite app_nil_r.
  destruct (np_argmax_range counts) as (k & -> & Hk).
  { destruct counts; [|done]. destruct a; [done|]. cbn in Hlen. lia. }
  exists k. split; [done|]. split; [done|lia].
Qed.

(** One iteration on a full window: a new id in range, or the exception of
    the draw on the tempered prediction. *)
Lemma generate_step_cases (m : model) (temperature : float) (generated phrase : list Z)
    (w : world) :
  length phrase = PHRASE_LEN →
  Forall (λ id, 0 ≤ id < Z.of_nat num_classes) phrase →
  match generate_step m temperature (generated, phrase) w with
  | (Ok st, w') =>
      ∃ next, st = (generated ++ [next], drop 1 phrase ++ [next]) ∧
              0 ≤ next < Z.of_nat num_classes
  | (Raise e, _) =>
      ∃ x preds rest g g',
        predict m x = preds :: rest ∧
        np_random_multinomial g 1 (tempered preds temperature) 1 = (Raise e, g')
  end.
Proof using predict_shape draw_shape.
  intros Hlen Hids. unfold generate_step, bind, lift, ret.
  rewrite one_hot_phrase_Ok by done.
  destruct (predict_shape m [map (one_hot num_classes) phrase])
    as (preds & rest & Hpred & Hpreds).
  rewrite Hpred, (getitem_Ok _ 0 preds) by done.
  assert (preds ≠ []) as Hne.
  { destruct preds; [|done]. pose proof num_classes_pos. cbn in Hpreds. lia. }
  pose proof (sample_cases preds temperature w Hne) as Hs.
  destruct (np_random_multinomial (gen w) 1 (tempered preds temperature) 1)
    as [[r|e] g'] eqn:Hdraw.
  - destruct Hs as (next & _ & -> & Hnext). exists next. split; [|lia].
    unfold slice. by rewrite Nat2Z.id, firstn_all.
  - rewrite Hs. by exists [map (one_hot num_classes) phrase], preds, rest, (gen w), g'.
Qed.

(** The loop after [k] iterations. *)
Lemma generate_loop_cases (m : model) (seed : list Z) (temperature : float) (k : nat)
    (w : world) :
  (0 < PHRASE_LEN)%nat → length seed = PHRASE_LEN →
  Forall (λ id, 0 ≤ id < Z.of_nat num_classes) seed →
  match generate_loop m seed temperature k w with
  | (Ok (generated, phrase), _) =>
      phrase = drop k (seed ++ generated) ∧ length generated = k ∧
      Forall (λ id, 0 ≤ id < Z.of_nat num_classes) generated
  | (Raise e, _) =>
      ∃ x preds rest g g',
        predict m x = preds :: rest ∧
        np_random_multinomial g 1 (tempered preds temperature) 1 = (Raise e, g')
  end.
Proof using predict_shape draw_shape.
  intros Hpos Hlen Hseed. unfold generate_loop. induction k as [|k IH].
  - cbn. unfold ret. by rewrite app_nil_r.
  - rewrite repeatM_S_r.
    destruct (repeatM k _ _ w) as [[[generated phrase]|e] w1]; [|done].
    destruct IH as (-> & Hgen & Hrange).
    pose proof (generate_step_cases m temperature generated
                  (drop k (seed ++ generated)) w1) as Hstep.
    destruct (generate_step _ _ _ w1) as [[[generated' phrase']|e] w2].
    + destruct Hstep as (next & [= -> ->] & Hnext).
      { rewrite length_drop, length_app. lia. }
      { by apply Forall_drop, Forall_app. }
      split; [|split].
      * rewrite drop_drop, app_assoc.
        rewrite (drop_app_le (seed ++ generated)) by (rewrite length_app; lia).
        by rewrite Nat.add_1_r.
      * rewrite length_app. cbn. lia.
      * apply Forall_app. split; [done|]. by apply Forall_singleton.
    + apply Hstep.
      * rewrite length_drop, length_app. lia.
      * by apply Forall_drop, Forall_app.
Qed.

(** C7: on a vector with one entry per class, whatever its entries and the
    temperature, the sampler returns a class id, an index in [0, 2^P),
    whenever its multinomial draw returns (the index is the [argmax] of the
    counts drawn), and raises what the draw raises otherwise; so every id of
    a generated sequence that the loop returns is in that range, and the
    loop fails only with the exception of a draw. *)
Theorem sample_in_range (a : list float) (temperature : float) (m : model)
    (seed : list Z) (len : nat) (w : world) :
  length a = num_classes →
  (0 < PHRASE_LEN)%nat → length seed = PHRASE_LEN →
  Forall (λ id, 0 ≤ id < Z.of_nat num_classes) seed →
  match np_random_multinomial (gen w) 1 (tempered a temperature) 1 with
  | (Ok counts, g') =>
      ∃ id, np_argmax (concat counts) = Ok id ∧
            sample a temperature w = (Ok id, World (fs w) g' (out w)) ∧
            0 ≤ id < Z.of_nat num_classes
  | (Raise e, g') => sample a temperature w = (Raise e, World (fs w) g' (out w))
  end ∧
  match generate_loop m seed temperature len w with
  | (Ok (generated, _), _) =>
      length generated = len ∧ Forall (λ id, 0 ≤ id < Z.of_nat num_classes) generated
  | (Raise e, _) =>
      ∃ x preds rest g g',
        predict m x = preds :: rest ∧
        np_random_multinomial g 1 (tempered preds temperature) 1 = (Raise e, g')
  end.
Proof using predict_shape draw_shape.
  intros Ha Hpos Hlen Hseed. split.
  - rewrite <- Ha. apply sample_cases.
    destruct a; [|done]. pose proof num_classes_pos. cbn in Ha. lia.
  - pose proof (generate_loop_cases m seed temperature len w Hpos Hlen Hseed) as Hloop.
    destruct (generate_loop m seed temperature len w) as [[[generated phrase]|e] w1];
      [|done].
    by destruct Hloop as (_ & Hgen & Hrange).
Qed.

End SamplerRange.

(** ** The driver *)

Lemma map_flat_map_singleton {A B} (f : A → B) (l : list A) :
  map f l = flat_map (λ x, [f x]) l.
Proof. induction l as [|x l IH]; [done|]. cbn. by rewrite IH. Qed.

Section Driver.
Context `{Config} `{External}.

Lemma emits_ret {A} (a : A) : emits (ret a) [].
Proof. intros w. exists []. cbn. by rewrite app_nil_r. Qed.

Lemma emits_lift {A} (r : result A) : emits (lift r) [].
Proof. intros w. exists []. cbn. by rewrite app_nil_r. Qed.

Lemma generate_calls_app (evs1 evs2 : list event) :
  generate_calls (evs1 ++ evs2) = generate_calls evs1 ++ generate_calls evs2.
Proof. unfold generate_calls. apply flat_map_app. Qed.

Lemma emits_emit (e : event) : emits (emit e) (generate_calls [e]).
Proof.
  intros w. exists (generate_calls [e]). cbn [emit snd out].
  by rewrite generate_calls_app.
Qed.

Lemma emits_bind {A B} (m : M A) (k : A → M B) cs1 cs2 :
  emits m cs1 → (∀ a, emits (k a) cs2) → emits (bind m k) (cs1 ++ cs2).
Proof.
  intros Hm Hk w. destruct (Hm w) as (pre1 & Hpre1 & Hcalls1 & Hok1).
  unfold bind. destruct (m w) as [[a|e] w1]; cbn [fst snd] in *.
  - destruct (Hk a w1) as (pre2 & Hpre2 & Hcalls2 & Hok2).
    rewrite (Hok1 (ex_intro _ a eq_refl)) in Hcalls1.
    exists (cs1 ++ pre2). split; [by apply prefix_app|].
    split; [by rewrite Hcalls2, Hcalls1, app_assoc|].
    intros Hok. by rewrite (Hok2 Hok).
  - exists pre1. split; [by apply prefix_app_r|]. split; [done|].
    by intros [? ?].
Qed.

Lemma emits_bind_quiet {A B} (m : M A) (k : A → M B) :
  emits m [] → (∀ a, emits (k a) []) → emits (bind m k) [].
Proof. intros Hm Hk. by apply (emits_bind m k [] []). Qed.

Lemma emits_foldM {A St} (body : St → A → M St) (s : St) (l : list A) :
  (∀ s x, emits (body s x) []) → emits (foldM body s l) [].
Proof.
  intros Hbody. revert s. induction l as [|x l IH]; intros s.
  - apply emits_ret.
  - cbn [foldM]. by apply emits_bind_quiet.
Qed.

Lemma emits_repeatM {St} (n : nat) (body : St → M St) (s : St) :
  (∀ s, emits (body s) []) → emits (repeatM n body s) [].
Proof.
  intros Hbody. revert s. induction n as [|n IH]; intros s.
  - apply emits_ret.
  - cbn [repeatM]. by apply emits_bind_quiet.
Qed.

Lemma emits_forM_ {A} (l : list A) (body : A → M unit) cs :
  (∀ x, emits (body x) (cs x)) → emits (forM_ l body) (flat_map cs l).
Proof.
  intros Hbody. induction l as [|x l IH].
  - apply emits_ret.
  - cbn [forM_ flat_map]. by apply emits_bind.
Qed.

Lemma emits_multinomial n pvals size : emits (multinomial n pvals size) [].
Proof.
  intros w. exists []. unfold multinomial.
  destruct (np_random_multinomial _ _ _ _) as [r g]. cbn. by rewrite app_nil_r.
Qed.

Lemma emits_sample a temperature : emits (sample a temperature) [].
Proof.
  unfold sample. apply emits_bind_quiet; [apply emits_multinomial|].
  intros counts. apply emits_lift.
Qed.

Lemma emits_generate_step m temperature st : emits (generate_step m temperature st) [].
Proof.
  unfold generate_step. destruct st as [generated phrase].
  apply emits_bind_quiet; [apply emits_lift|]. intros x.
  apply emits_bind_quiet; [apply emits_lift|]. intros preds.
  apply emits_bind_quiet; [apply emits_sample|]. intros next_id.
  apply emits_ret.
Qed.

Lemma emits_generate m seed mid_name temperature len :
  emits (generate m seed mid_name temperature len) [(mid_name, temperature, len)].
Proof.
  unfold generate.
  apply (emits_bind _ _ [(mid_name, temperature, len)] []); [apply emits_emit|].
  intros _. apply emits_bind_quiet; [apply emits_lift|]. intros phrase_array.
  apply emits_bind_quiet; [apply emits_emit|]. intros _.
  apply emits_bind_quiet.
  { unfold generate_loop. apply emits_repeatM. intros st. apply emits_generate_step. }
  intros st. apply emits_bind_quiet; [apply emits_lift|]. intros decoded.
  apply emits_bind_quiet; [apply emits_lift|]. intros unfolded.
  apply emits_bind_quiet; [apply emits_emit|]. intros _. apply emits_ret.
Qed.

Lemma emits_load_file root config_seq file : emits (load_file root config_seq file) [].
Proof.
  unfold load_file. destruct (negb _); [apply emits_ret|].
  apply emits_bind_quiet.
  { unfold np_load. apply emits_bind_quiet; [apply emits_emit|].
    intros _. apply emits_ret. }
  intros array. apply emits_bind_quiet; [apply emits_lift|]. intros sub.
  apply emits_bind_quiet; [apply emits_emit|]. intros _.
  case_bool_decide; [apply emits_ret|].
  apply emits_bind_quiet; [apply emits_lift|]. intros ids. apply emits_ret.
Qed.

Lemma emits_prepare_data : emits prepare_data [].
Proof.
  unfold prepare_data. apply emits_bind_quiet.
  { unfold load_config_seq. apply emits_bind_quiet.
    - unfold os_walk. apply emits_bind_quiet; [apply emits_emit|].
      intros _ w. exists []. cbn. by rewrite app_nil_r.
    - intros tree. apply emits_foldM. intros config_seq [root files].
      apply emits_foldM. intros config_seq' file. apply emits_load_file. }
  intros config_seq. apply emits_bind_quiet; [apply emits_lift|].
  intros Xy. apply emits_ret.
Qed.

Lemma emits_run : emits run run_calls.
Proof.
  unfold run.
  apply (emits_bind _ _ [] run_calls); [apply emits_prepare_data|]. intros _.
  apply (emits_bind _ _ [] run_calls); [apply emits_emit|]. intros _.
  apply (emits_bind _ _ [] run_calls); [apply emits_lift|]. intros seed.
  unfold run_calls. apply emits_forM_. intros temperature.
  rewrite map_flat_map_singleton.
  apply emits_forM_. intros i.
  apply (emits_bind _ _ [] [_]); [apply emits_lift|]. intros ids.
  match goal with |- emits _ [?c] => apply (emits_bind _ _ [c] []) end;
    [apply emits_generate|].
  intros _. apply emits_ret.
Qed.

(** C10: whatever the world, the calls of [generate] that [run] makes are
    the first calls of [run_calls], and all fifteen of them when [run]
    returns, as it does on a corpus with a window of events; each of the
    fifteen carries temperature 1.1 and length 4096, and the loop variable
    over [0.7, 0.9, 1.1] appears in the file name alone. *)
Theorem run_temperature :
  (∀ w, ∃ pre, pre `prefix_of` run_calls ∧
               generate_calls (out (run w).2) = generate_calls (out w) ++ pre ∧
               (is_Ok (run w).1 → pre = run_calls)) ∧
  (∀ w, predict_contract → multinomial_contract →
        PHRASE_LEN = 32%nat → length PITCHES = 4%nat →
        length OUT_PITCHES = 4%nat → Forall (λ p, 0 ≤ p < 128) OUT_PITCHES →
        corpus_readable (fs w) →
        (PHRASE_LEN ≤ length (event_sequence (fs w)))%nat →
        (run w).1 = Ok tt ∧
        generate_calls (out (run w).2) = generate_calls (out w) ++ run_calls) ∧
  length run_calls = 15%nat ∧
  Forall (λ c, c.1.2 = float_of_Q (11 # 10)%Q ∧ c.2 = 4096%nat) run_calls ∧
  map (λ c, c.1.1) run_calls
  = flat_map (λ temperature : Q,
                map (λ i, Format "out{}_{}_{}.mid" [FInt 4096; FFloat temperature; FInt i])
                    [0; 1; 2; 3; 4])
             [(7 # 10)%Q; (9 # 10)%Q; (11 # 10)%Q].
Proof.
  split; [apply emits_run|]. split; [|split; [done|split; [|done]]].
  - intros w Hpredict Hdraw Hphrase Hpitches Hout Hrange Hread Hlong.
    destruct (run_returns Hpredict Hdraw w) as (w' & Hrun); [done..|].
    destruct (emits_run w) as (pre & _ & Hcalls & Hall).
    rewrite Hrun in Hcalls, Hall |- *. cbn [fst snd] in Hcalls, Hall |- *.
    split; [done|]. rewrite Hcalls. f_equal. apply Hall. by exists tt.
  - unfold run_calls. apply Forall_flat_map, Forall_forall. intros temperature _.
    apply Forall_map, Forall_forall. intros i _. done.
Qed.

(** C9: with more than 8 pitches the module stops at the assertion, having
    done nothing but seed the random generator: no file is read, nothing is
    printed, [run] is not entered.  With at most 8 pitches the assertion
    passes and the module goes on to [run]. *)
Theorem pitch_guard :
  ((8 < length PITCHES)%nat →
     check_pitches = Raise AssertionError ∧
     ∀ w, main w = (Raise AssertionError, World (fs w) (np_random_seed 10) (out w))) ∧
  ((length PITCHES ≤ 8)%nat →
     check_pitches = Ok tt ∧
     ∀ w, main w = run (World (fs w) (np_random_seed 10) (out w))).
Proof.
  split; intros Hlen.
  - assert (check_pitches = Raise AssertionError) as Hcheck.
    { unfold check_pitches. by rewrite bool_decide_false by lia. }
    split; [done|]. intros w. unfold main, bind, lift. by rewrite Hcheck.
  - assert (check_pitches = Ok tt) as Hcheck.
    { unfold check_pitches. by rewrite bool_decide_true by lia. }
    split; [done|]. intros w. unfold main, bind, lift. by rewrite Hcheck.
Qed.

Lemma filtered_contribution (file : string * ndarray) :
  filtered file → contribution file = [].
Proof.
  intros [Hext|Hlow]; unfold contribution.
  - by rewrite Hext.
  - destruct (negb _); [done|]. by rewrite bool_decide_true.
Qed.

Lemma filtered_event_sequence (tree : list (string * list (string * ndarray))) :
  Forall (λ dir, Forall filtered dir.2) tree → event_sequence tree = [].
Proof.
  unfold event_sequence. induction 1 as [|dir tree Hdir _ IH]; [done|].
  cbn [flat_map]. rewrite IH, app_nil_r.
  induction Hdir as [|file files Hfile _ IHf]; [done|].
  cbn [flat_map]. by rewrite IHf, filtered_contribution.
Qed.

(** C3 (amended): when the corpus is empty, or every file of it is skipped
    or discarded, the event sequence the builder collects is empty and the
    builder does not return: the allocation of the example array, asked for
    -PHRASE_LEN rows, raises [ValueError]. *)
Theorem empty_corpus_raises (w : world) :
  (0 < PHRASE_LEN)%nat →
  corpus_readable (fs w) →
  Forall (λ dir, Forall filtered dir.2) (fs w) →
  ∃ w', load_config_seq w = (Ok [], w') ∧
        prepare_data w = (Raise ValueError, w').
Proof.
  intros Hpos Hread Hfilt. eexists. split.
  - rewrite load_config_seq_run by done.
    by rewrite filtered_event_sequence.
  - unfold prepare_data, bind. rewrite load_config_seq_run by done.
    rewrite filtered_event_sequence by done. unfold lift.
    rewrite construct_examples_short; [done|]. cbn. lia.
Qed.

End Driver.

(** ** The development at the repository's configuration *)

Example encode_source :
  @encode source (NdArray 4 [[1; 0; 0; 1]; [0; 0; 0; 0]; [0; 3; 0; 0]]) = Ok [9; 0; 4].
Proof. vm_compute. reflexivity. Qed.

Example decode_source :
  @decode source [9; 0] = Ok (NdArray 4 [[120; 0; 0; 120]; [0; 0; 0; 0]]).
Proof. vm_compute. reflexivity. Qed.

Example load_demo :
  (@load_config_seq source (stub 16) demo_world).1 = Ok demo_sequence.
Proof. vm_compute. reflexivity. Qed.

Example generate_loop_demo :
  (@generate_loop source (stub 16) tt demo_seed (11 # 10)%Q 3 demo_world).1
  = Ok ([0; 1; 2], drop 3 demo_seed ++ [0; 1; 2]).
Proof. vm_compute. reflexivity. Qed.

Lemma stub_predict_contract : @predict_contract source (stub 16).
Proof. intros m x. do 2 eexists. split; reflexivity. Qed.

Lemma stub_multinomial_contract : @multinomial_contract (stub 16).
Proof.
  intros g pvals. do 2 eexists. split; [reflexivity|].
  by rewrite length_insert, length_replicate.
Qed.

Ltac readable_file :=
  intros Hext;
  first [ by vm_compute in Hext
        | unfold readable; cbn; repeat (apply Forall_cons_2; [lia|]); apply Forall_nil_2 ].

Lemma demo_fs_readable : @corpus_readable source demo_fs.
Proof.
  unfold corpus_readable, demo_fs. apply Forall_singleton. cbn [snd].
  repeat (apply Forall_cons_2; [readable_file|]). apply Forall_nil_2.
Qed.

Lemma codec_bijection_witness :
  wf_ndarray (NdArray 4 [[1; 0; 0; 1]; [0; 127; 0; 0]]) ∧
  shape1 (NdArray 4 [[1; 0; 0; 1]; [0; 127; 0; 0]]) = @num_pitches source ∧
  rows (NdArray 4 [[1; 0; 0; 1]; [0; 127; 0; 0]]) ≠ [] ∧
  ∃ ids, @encode source (NdArray 4 [[1; 0; 0; 1]; [0; 127; 0; 0]]) = Ok ids ∧
         Forall (λ id, 0 ≤ id < Z.of_nat (@num_classes source)) ids ∧
         @decode source ids = Ok (NdArray 4 [[120; 0; 0; 120]; [0; 120; 0; 0]]).
Proof.
  assert (wf_ndarray (NdArray 4 [[1; 0; 0; 1]; [0; 127; 0; 0]])) as Hwf
    by (repeat constructor).
  split; [exact Hwf|]. split; [reflexivity|]. split; [discriminate|].
  apply (proj1 (@codec_bijection source) _ Hwf eq_refl). discriminate.
Defined.

Lemma tables_binary_counting_witness :
  0 ≤ 9 < Z.of_nat (@num_classes source) ∧
  @configurations source !! Z.to_nat 9 = Some [1; 0; 0; 1] ∧
  @encodings source !! [1; 0; 0; 1] = Some 9 ∧
  @decodings source !! 9 = Some [1; 0; 0; 1].
Proof.
  assert (0 ≤ 9 < Z.of_nat (@num_classes source)) as Hi by (vm_compute; split; congruence).
  split; [exact Hi|].
  exact (proj1 (proj2 (proj2 (proj2 (@tables_binary_counting source)))) 9 Hi).
Defined.

Lemma unfold_columns_witness :
  shape1 (NdArray 4 [[1; 0; 1; 0]; [0; 5; 0; 7]]) = length [36; 38; 42; 51] ∧
  NoDup [36; 38; 42; 51] ∧ Forall (λ p, 0 ≤ p < 128) [36; 38; 42; 51] ∧
  ∃ res, unfold (NdArray 4 [[1; 0; 1; 0]; [0; 5; 0; 7]]) [36; 38; 42; 51] = Ok res ∧
         shape1 res = 128%nat ∧ wf_ndarray res ∧ shape0 res = 2%nat ∧
         (∀ i p, [36; 38; 42; 51] !! i = Some p →
                 column res (Z.to_nat p) = column (NdArray 4 [[1; 0; 1; 0]; [0; 5; 0; 7]]) i) ∧
         (∀ q, (q < 128)%nat → Z.of_nat q ∉ [36; 38; 42; 51] →
               column res q = replicate 2 0).
Proof.
  assert (NoDup [36; 38; 42; 51]) as Hnd by (apply (bool_decide_unpack _); vm_compute; reflexivity).
  assert (Forall (λ p, 0 ≤ p < 128) [36; 38; 42; 51]) as Hr by (repeat constructor; lia).
  split; [reflexivity|]. split; [exact Hnd|]. split; [exact Hr|].
  exact (proj1 (unfold_columns (NdArray 4 [[1; 0; 1; 0]; [0; 5; 0; 7]]) [36; 38; 42; 51])
           eq_refl Hnd Hr).
Defined.

Lemma demo_sequence_range :
  Forall (λ id, 0 ≤ id < Z.of_nat (@num_classes source)) demo_sequence.
Proof. apply (bool_decide_unpack _). vm_compute. reflexivity. Qed.

Lemma demo_seed_range :
  Forall (λ id, 0 ≤ id < Z.of_nat (@num_classes source)) demo_seed.
Proof. apply (bool_decide_unpack _). vm_compute. reflexivity. Qed.

Lemma examples_of_sequence_witness :
  Forall (λ id, 0 ≤ id < Z.of_nat (@num_classes source)) demo_sequence ∧
  (@PHRASE_LEN source ≤ length demo_sequence)%nat ∧
  ∃ X y, @construct_examples source demo_sequence = Ok (X, y) ∧
         length X = 8%nat ∧ length y = 8%nat ∧
         ∀ i, (i < 8)%nat →
              X !! i = Some (@window_one_hot source demo_sequence i) ∧
              length (@window_one_hot source demo_sequence i) = 32%nat ∧
              y !! i = Some (@label_one_hot source demo_sequence i).
Proof.
  assert (@PHRASE_LEN source ≤ length demo_sequence)%nat as Hlen by (vm_compute; lia).
  split; [exact demo_sequence_range|]. split; [exact Hlen|].
  exact (proj1 (@examples_of_sequence source demo_sequence) demo_sequence_range Hlen).
Defined.

(** C2 as stated fails on a sequence shorter than the window: with 3 events
    and PHRASE_LEN = 32 the builder does not produce max(3 - 32, 0) = 0
    examples, it raises. *)
Lemma examples_of_sequence_counterexample :
  ¬ ∃ X y, @construct_examples source [8; 0; 2] = Ok (X, y) ∧
           Z.of_nat (length X) = Z.max (3 - 32) 0.
Proof. intros (X & y & Hrun & _). vm_compute in Hrun. discriminate. Qed.

Lemma silent_world_readable : @corpus_readable source (fs silent_world).
Proof.
  unfold corpus_readable, silent_world. cbn [fs]. apply Forall_singleton. cbn [snd].
  repeat (apply Forall_cons_2; [readable_file|]). apply Forall_nil_2.
Qed.

Lemma silent_world_filtered :
  Forall (λ dir, Forall (@filtered source) dir.2) (fs silent_world).
Proof.
  unfold silent_world. cbn [fs]. apply Forall_singleton. cbn [snd].
  apply Forall_cons_2; [right; vm_compute; reflexivity|].
  apply Forall_cons_2; [left; vm_compute; reflexivity|]. apply Forall_nil_2.
Qed.

Lemma empty_corpus_raises_witness :
  (0 < @PHRASE_LEN source)%nat ∧
  @corpus_readable source (fs silent_world) ∧
  Forall (λ dir, Forall (@filtered source) dir.2) (fs silent_world) ∧
  ∃ w', @load_config_seq source (stub 16) silent_world = (Ok [], w') ∧
        @prepare_data source (stub 16) silent_world = (Raise ValueError, w').
Proof.
  assert (0 < @PHRASE_LEN source)%nat as Hpos by (vm_compute; lia).
  split; [exact Hpos|]. split; [exact silent_world_readable|].
  split; [exact silent_world_filtered|].
  exact (@empty_corpus_raises source (stub 16) silent_world Hpos
           silent_world_readable silent_world_filtered).
Defined.

(** C3 as stated fails: on an empty corpus, and on one whose files are all
    filtered out, the builder does not return. *)
Lemma empty_corpus_counterexample :
  (¬ ∃ r w', @prepare_data source (stub 16) (@World (stub 16) [] 0%nat []) = (Ok r, w')) ∧
  (¬ ∃ r w', @prepare_data source (stub 16) silent_world = (Ok r, w')).
Proof.
  split; intros (r & w' & Hrun); vm_compute in Hrun; discriminate.
Qed.


Lemma stub_draw_contract : @draw_contract (stub 16).
Proof.
  intros g pvals r g' [= <- <-]. eexists. split; [done|].
  by rewrite length_insert, length_replicate.
Qed.

(** The binary32 collaborators keep the contract of a draw that returns. *)
Lemma binary32_draw_contract (preds : list f32) : @draw_contract (binary32 preds).
Proof.
  intros g pvals r g' Hdraw. cbn [np_random_multinomial binary32] in Hdraw.
  destruct (SpecFloat.SFltb _ _); [done|]. injection Hdraw as <- <-.
  eexists. split; [done|]. by rewrite length_insert, length_replicate.
Qed.

Lemma sample_in_range_witness :
  length (replicate 16 (1 # 16)%Q) = @num_classes source ∧
  (0 < @PHRASE_LEN source)%nat ∧ length demo_seed = @PHRASE_LEN source ∧
  Forall (λ id, 0 ≤ id < Z.of_nat (@num_classes source)) demo_seed ∧
  (∃ id, np_argmax (concat [<[0%nat := 1]> (replicate 16 0)]) = Ok id ∧
         @sample (stub 16) (replicate 16 (1 # 16)%Q) (11 # 10)%Q demo_world
         = (Ok id, @World (stub 16) (fs demo_world) 1%nat (out demo_world)) ∧
         0 ≤ id < Z.of_nat (@num_classes source)) ∧
  match @generate_loop source (stub 16) tt demo_seed (11 # 10)%Q 5 demo_world with
  | (Ok (generated, _), _) =>
      length generated = 5%nat ∧
      Forall (λ id, 0 ≤ id < Z.of_nat (@num_classes source)) generated
  | (Raise e, _) =>
      ∃ x preds rest g g',
        @predict (stub 16) tt x = preds :: rest ∧
        @np_random_multinomial (stub 16) g 1 (@tempered (stub 16) preds (11 # 10)%Q) 1
        = (Raise e, g')
  end.
Proof.
  assert (0 < @PHRASE_LEN source)%nat as Hpos by (vm_compute; lia).
  split; [reflexivity|]. split; [exact Hpos|]. split; [reflexivity|].
  split; [exact demo_seed_range|].
  exact (@sample_in_range source (stub 16) stub_predict_contract stub_draw_contract
           (replicate 16 (1 # 16)%Q) (11 # 10)%Q tt demo_seed 5%nat demo_world
           eq_refl Hpos eq_refl demo_seed_range).
Defined.

(** Some values of the binary32 model: the number nearest to 1/3, [log 1],
    [exp 1], [log 10] and the temperature 1.1. *)
Example f32_values :
  f32_div (f32_round 1 0) (f32_round 3 0) = SpecFloat.S754_finite false 11184811 (-25) ∧
  f32_log (f32_round 1 0) = SpecFloat.S754_zero false ∧
  f32_exp (f32_round 1 0) = SpecFloat.S754_finite false 11401300 (-22) ∧
  f32_log (f32_round 10 0) = SpecFloat.S754_finite false 9657742 (-22) ∧
  f32_of_Q (11 # 10) = SpecFloat.S754_finite false 9227469 (-23).
Proof. vm_compute. repeat split. Qed.

(** What [sample] hands to the draw on [thirds] at temperature 1.0: the
    vector itself.  The binary64 sum of its first fifteen entries is
    1 + 2^-25 + 3 * 2^-38, above the bound 1 + 1e-12. *)
Example thirds_rescaled :
  @tempered (binary32 thirds) thirds (f32_round 1 0) = thirds ∧
  kahan_sum thirds 15 = SpecFloat.S754_finite false 4503599761637376 (-52) ∧
  pvals_bound = SpecFloat.S754_finite false 4503599627375000 (-52) ∧
  SpecFloat.SFltb pvals_bound (kahan_sum thirds 15) = true.
Proof. vm_compute. repeat split. Qed.

(** [sample] on [thirds] in binary32 arithmetic, at the temperatures 1.0 and
    1.1, and one iteration of a generator whose classifier answers
    [thirds]. *)
Example sample_thirds :
  (@sample (binary32 thirds) thirds (f32_round 1 0)
     (@World (binary32 thirds) [] 0%nat [])).1 = Raise ValueError ∧
  (@sample (binary32 thirds) thirds (f32_of_Q (11 # 10))
     (@World (binary32 thirds) [] 0%nat [])).1 = Raise ValueError ∧
  (@generate_loop source (binary32 thirds) tt demo_seed (f32_of_Q (11 # 10)) 1
     (@World (binary32 thirds) [] 0%nat [])).1 = Raise ValueError.
Proof. vm_compute. split; [|split]; reflexivity. Qed.

(** C7 as stated fails in the arithmetic of the arrays.  On the prediction
    [thirds], whose sixteen entries are positive binary32 numbers with sum 1,
    the rescaled probabilities of the first fifteen classes add up to more
    than 1 + 1e-12, at temperature 1.0 as at the 1.1 of [run]: the draw
    refuses them and [sample] raises [ValueError] instead of returning an
    index; a generator whose classifier answers [thirds] returns nothing. *)
Lemma sample_in_range_counterexample :
  (¬ ∃ id w', @sample (binary32 thirds) thirds (f32_round 1 0)
                (@World (binary32 thirds) [] 0%nat []) = (Ok id, w') ∧
              0 ≤ id < Z.of_nat (@num_classes source)) ∧
  (¬ ∃ id w', @sample (binary32 thirds) thirds (f32_of_Q (11 # 10))
                (@World (binary32 thirds) [] 0%nat []) = (Ok id, w') ∧
              0 ≤ id < Z.of_nat (@num_classes source)) ∧
  (¬ ∃ st w', @generate_loop source (binary32 thirds) tt demo_seed (f32_of_Q (11 # 10)) 1
                (@World (binary32 thirds) [] 0%nat []) = (Ok st, w')) ∧
  length thirds = @num_classes source ∧
  Forall (λ p, SpecFloat.SFltb (SpecFloat.S754_zero false) p = true)
         (f32_round 1 0 :: f32_of_Q (11 # 10) :: thirds) ∧
  f32_sum thirds = f32_round 1 0.
Proof.
  destruct sample_thirds as (Hone & Hrun & Hloop).
  split; [|split; [|split]].
  - intros (id & w' & Hret & _).
    discriminate (eq_trans (eq_sym Hone) (f_equal fst Hret)).
  - intros (id & w' & Hret & _).
    discriminate (eq_trans (eq_sym Hrun) (f_equal fst Hret)).
  - intros (st & w' & Hret).
    discriminate (eq_trans (eq_sym Hloop) (f_equal fst Hret)).
  - split; [reflexivity|]. split; [|vm_compute; reflexivity].
    repeat (apply Forall_cons_2; [vm_compute; reflexivity|]). apply Forall_nil_2.
Qed.

Lemma min_hits_filter_witness :
  String.eqb (extension demo_file.1) "npy" = true ∧
  @readable source demo_file ∧
  ∃ w', (count_active (restrict demo_file.2 (@PITCHES source)) < @MIN_HITS source →
         @load_file source (stub 16) "dir" [5] demo_file demo_world = (Ok [5], w')) ∧
        (@MIN_HITS source ≤ count_active (restrict demo_file.2 (@PITCHES source)) →
         ∃ ids, @load_file source (stub 16) "dir" [5] demo_file demo_world
                = (Ok ([5] ++ ids), w') ∧
                length ids = shape0 demo_file.2 ∧
                @encode source (restrict demo_file.2 (@PITCHES source)) = Ok ids ∧
                Forall (λ id, 0 ≤ id < Z.of_nat (@num_classes source)) ids).
Proof.
  assert (@readable source demo_file) as Hread.
  { unfold readable. cbn. repeat (apply Forall_cons_2; [lia|]). apply Forall_nil_2. }
  split; [reflexivity|]. split; [exact Hread|].
  exact (proj1 (@min_hits_filter source (stub 16)) "dir"%string demo_file [5] demo_world
           eq_refl Hread).
Defined.

Example min_hits_boundary :
  count_active (restrict demo_file.2 (@PITCHES source)) = 8 ∧
  (@load_file source (stub 16) "dir" [5] demo_file demo_world).1
  = Ok [5; 12; 12; 12; 12] ∧
  (@load_file source (stub 16) "dir" [5]
     ("beat.npy"%string, NdArray 128 [demo_row 100 90; demo_row 100 90;
                                      demo_row 100 90; demo_row 100 0]) demo_world).1
  = Ok [5].
Proof. vm_compute. done. Qed.

Lemma pitch_guard_witness :
  (8 < length (@PITCHES wide))%nat ∧
  (length (@PITCHES source) ≤ 8)%nat ∧
  @main wide (stub 16) demo_world
  = (Raise AssertionError, @World (stub 16) (fs demo_world) 10%nat (out demo_world)) ∧
  @check_pitches source = Ok tt ∧
  @main source (stub 16) silent_world
  = @run source (stub 16) (@World (stub 16) (fs silent_world) 10%nat (out silent_world)).
Proof.
  assert (8 < length (@PITCHES wide))%nat as Hwide by (vm_compute; lia).
  assert (length (@PITCHES source) ≤ 8)%nat as Hsrc by (vm_compute; lia).
  split; [exact Hwide|]. split; [exact Hsrc|]. split.
  - exact (proj2 (proj1 (@pitch_guard wide (stub 16)) Hwide) demo_world).
  - split.
    + exact (proj1 (proj2 (@pitch_guard source (stub 16)) Hsrc)).
    + exact (proj2 (proj2 (@pitch_guard source (stub 16)) Hsrc) silent_world).
Defined.

Lemma demo_fs_long : (@PHRASE_LEN source ≤ length (@event_sequence source demo_fs))%nat.
Proof. vm_compute. lia. Qed.

Lemma run_temperature_witness :
  @predict_contract source (stub 16) ∧ @multinomial_contract (stub 16) ∧
  @PHRASE_LEN source = 32%nat ∧ length (@PITCHES source) = 4%nat ∧
  length (@OUT_PITCHES source) = 4%nat ∧
  Forall (λ p, 0 ≤ p < 128) (@OUT_PITCHES source) ∧
  @corpus_readable source (fs demo_world) ∧
  (@PHRASE_LEN source ≤ length (@event_sequence source (fs demo_world)))%nat ∧
  (@run source (stub 16) demo_world).1 = Ok tt ∧
  @generate_calls (stub 16) (out (@run source (stub 16) demo_world).2)
  = @generate_calls (stub 16) (out demo_world) ++ @run_calls (stub 16).
Proof.
  assert (Forall (λ p, 0 ≤ p < 128) (@OUT_PITCHES source)) as Hout.
  { cbn. repeat (apply Forall_cons_2; [lia|]). apply Forall_nil_2. }
  split; [exact stub_predict_contract|]. split; [exact stub_multinomial_contract|].
  split; [reflexivity|]. split; [reflexivity|]. split; [reflexivity|].
  split; [exact Hout|]. split; [exact demo_fs_readable|]. split; [exact demo_fs_long|].
  exact (proj1 (proj2 (@run_temperature source (stub 16))) demo_world
           stub_predict_contract stub_multinomial_contract eq_refl eq_refl eq_refl
           Hout demo_fs_readable demo_fs_long).
Defined.

(** * Further properties of the program *)

(** ** Comprehensions that raise *)

Lemma mapM_result_Raise {A B} (f : A → result B) (e : exn) (l : list A) :
  Forall (λ x, f x = Raise e ∨ ∃ y, f x = Ok y) l →
  Exists (λ x, f x = Raise e) l →
  mapM_result f l = Raise e.
Proof.
  intros Hall Hex. induction Hall as [|x l Hx Hall IH]; [by inversion Hex|].
  cbn [mapM_result]. destruct Hx as [Hx|[y Hx]]; rewrite Hx; [done|].
  cbn. inversion Hex as [? ? Hbad|? ? Hbad]; subst; [congruence|].
  by rewrite IH.
Qed.

Lemma mapM_result_app {A B} (f : A → result B) (l1 l2 : list A) (ys1 ys2 : list B) :
  mapM_result f l1 = Ok ys1 → mapM_result f l2 = Ok ys2 →
  mapM_result f (l1 ++ l2) = Ok (ys1 ++ ys2).
Proof.
  revert ys1. induction l1 as [|x l1 IH]; intros ys1 H1 H2.
  - injection H1 as <-. done.
  - cbn [mapM_result app] in H1 |- *. destruct (f x) as [y|e]; [|done].
    cbn in H1 |- *. destruct (mapM_result f l1) as [ys|e]; [|done].
    cbn in H1. injection H1 as <-. by rewrite (IH ys eq_refl H2).
Qed.

Section CodecEdges.
Context `{Config}.

Lemma encodings_key_length (c : list Z) (i : Z) :
  encodings !! c = Some i → length c = num_pitches.
Proof.
  intros [_ ->]%encodings_lookup. apply length_binary_digits.
Qed.

Lemma encode_row_wrong_length (row : list Z) :
  length row ≠ num_pitches → dict_get encodings (threshold row) = Raise KeyError.
Proof.
  intros Hlen. unfold dict_get.
  destruct (encodings !! threshold row) as [i|] eqn:Hi; [|done].
  apply encodings_key_length in Hi. rewrite length_threshold in Hi. done.
Qed.

(** X1: on an array with one column per pitch, [encode] turns each row into
    the number its >0 pattern spells in binary, first pitch most
    significant; rows are encoded one by one, so encoding two arrays stacked
    gives the two id sequences joined. *)
Theorem encode_binary_value (a b : ndarray) :
  wf_ndarray a → shape1 a = num_pitches →
  wf_ndarray b → shape1 b = num_pitches →
  encode a = Ok (map (λ row, class_id (threshold row)) (rows a)) ∧
  ∃ ids_a ids_b, encode a = Ok ids_a ∧ encode b = Ok ids_b ∧
                 encode (NdArray num_pitches (rows a ++ rows b)) = Ok (ids_a ++ ids_b).
Proof.
  intros Hwa Hca Hwb Hcb. split; [by apply encode_Ok|].
  do 2 eexists. split; [by apply encode_Ok|]. split; [by apply encode_Ok|].
  rewrite encode_Ok; [by cbn; rewrite map_app| |done].
  unfold wf_ndarray in *. cbn. apply Forall_app. split.
  - eapply Forall_impl; [exact Hwa|]. intros r Hr. cbn beta in Hr. congruence.
  - eapply Forall_impl; [exact Hwb|]. intros r Hr. cbn beta in Hr. congruence.
Qed.

Lemma encode_KeyError (a : ndarray) :
  wf_ndarray a → shape1 a ≠ num_pitches → rows a ≠ [] → encode a = Raise KeyError.
Proof.
  intros Hwf Hcols Hne. unfold encode. apply mapM_result_Raise.
  - apply Forall_forall. intros row _.
    unfold dict_get. destruct (encodings !! threshold row); eauto.
  - destruct (rows a) as [|row l] eqn:Hrows; [done|].
    apply Exists_cons_hd. apply encode_row_wrong_length.
    unfold wf_ndarray in Hwf. rewrite Hrows in Hwf.
    apply Forall_inv in Hwf. cbn beta in Hwf. congruence.
Qed.

Lemma decode_nil : decode [] = Raise ValueError.
Proof. done. Qed.

(** X2: an array whose column count differs from the number of pitches has
    no entry in the table: with at least one row [encode] raises [KeyError];
    with no rows it returns the empty sequence whatever the width. *)
Theorem encode_wrong_width (a : ndarray) :
  (wf_ndarray a → shape1 a ≠ num_pitches → rows a ≠ [] → encode a = Raise KeyError) ∧
  (rows a = [] → encode a = Ok []).
Proof.
  split; [apply encode_KeyError|].
  intros Hrows. unfold encode. by rewrite Hrows.
Qed.

(** X3: [decode] of no ids raises [ValueError] (there is nothing to stack),
    and [decode] of a sequence with an id outside [0, 2^P) raises
    [KeyError]. *)
Theorem decode_errors :
  decode [] = Raise ValueError ∧
  (∀ ids, Exists (λ id, ¬ (0 ≤ id < Z.of_nat num_classes)) ids →
          decode ids = Raise KeyError).
Proof.
  split; [apply decode_nil|]. intros ids Hbad. unfold decode.
  rewrite (mapM_result_Raise _ KeyError); [done| |].
  - apply Forall_forall. intros id _. unfold dict_get.
    destruct (decodings !! id); eauto.
  - eapply Exists_impl; [exact Hbad|]. intros id Hid. cbn beta in Hid.
    unfold dict_get. by rewrite decodings_lookup_None.
Qed.

End CodecEdges.
(** ** Unfolding with any pitch list *)

Lemma np_index_norm (p : Z) :
  -128 ≤ p < 128 → np_index 128 p = Ok (norm_pitch p).
Proof.
  intros Hp. unfold np_index, norm_pitch.
  destruct (decide (0 ≤ p)) as [H0|H0].
  - by rewrite (bool_decide_true (0 ≤ p)), bool_decide_true by lia.
  - rewrite (bool_decide_false (0 ≤ p)), bool_decide_false by lia.
    by rewrite bool_decide_true by lia.
Qed.

Lemma np_index_out (n : nat) (i : Z) :
  ¬ (- Z.of_nat n ≤ i < Z.of_nat n) → np_index n i = Raise IndexError.
Proof.
  intros Hi. unfold np_index. by rewrite !bool_decide_false by lia.
Qed.

Lemma norm_pitch_lt (p : Z) : -128 ≤ p < 128 → (norm_pitch p < 128)%nat.
Proof. intros Hp. unfold norm_pitch. case_bool_decide; lia. Qed.

Lemma scatter_any_S pitches ar k :
  scatter_any pitches ar (S k)
  = <[norm_pitch (default 0 (pitches !! k)) := default 0 (ar !! k)]>
      (scatter_any pitches ar k).
Proof. unfold scatter_any. by rewrite seq_S, foldl_app. Qed.

Lemma length_scatter_any pitches ar k : length (scatter_any pitches ar k) = 128%nat.
Proof.
  induction k as [|k IH]; [done|]. by rewrite scatter_any_S, length_insert.
Qed.

(** The loop of [unfold] over the first [n] pitches: it runs through when
    they are all columns numpy accepts and raises as soon as one is not. *)
Lemma unfold_loop (a : ndarray) (pitches : list Z) (n : nat) :
  shape1 a = length pitches → (n ≤ length pitches)%nat →
  foldM_result
    (λ res i, p ← getitem pitches i; col ← np_get_col a i; np_set_col res p col)
    (NdArray 128 (replicate (shape0 a) (replicate 128 0))) (xrange (Z.of_nat n))
  = if decide (Forall (λ p, -128 ≤ p < 128) (take n pitches))
    then Ok (NdArray 128 (map (λ ar, scatter_any pitches ar n) (rows a)))
    else Raise IndexError.
Proof.
  intros Hcols. induction n as [|n IH]; intros Hn.
  - change (xrange (Z.of_nat 0)) with (@nil Z). cbn [foldM_result take].
    rewrite decide_True by constructor. do 2 f_equal.
    exact (replicate_length_map (rows a) (replicate 128 0)).
  - destruct (pitches !! n) as [p|] eqn:Hp; [|apply lookup_ge_None_1 in Hp; lia].
    rewrite xrange_S, foldM_result_app, IH by lia.
    rewrite (take_S_r _ _ _ Hp).
    destruct (decide (Forall (λ p, -128 ≤ p < 128) (take n pitches))) as [Hgood|Hbad].
    + cbn [mbind result_bind foldM_result].
      rewrite (getitem_Ok _ _ _ Hp). cbn [mbind result_bind].
      unfold np_get_col. rewrite np_index_nat by lia. cbn [mbind result_bind].
      unfold np_set_col. cbn [shape1 rows].
      destruct (decide (-128 ≤ p < 128)) as [Hin|Hout].
      * rewrite decide_True by (apply Forall_app; split; [done|by apply Forall_singleton]).
        rewrite np_index_norm by done. cbn [mbind result_bind]. do 2 f_equal.
        rewrite zip_with_map_same. apply map_ext. intros ar.
        by rewrite scatter_any_S, Hp.
      * rewrite decide_False.
        2:{ intros [_ Hlast%Forall_inv]%Forall_app. done. }
        by rewrite np_index_out by (cbn; lia).
    + cbn [mbind result_bind]. rewrite decide_False; [done|].
      by intros [? _]%Forall_app.
Qed.

Lemma scatter_any_last pitches ar k i p :
  (k ≤ length pitches)%nat → Forall (λ p, -128 ≤ p < 128) pitches →
  (i < k)%nat → pitches !! i = Some p →
  (∀ j p', (i < j)%nat → pitches !! j = Some p' → norm_pitch p' ≠ norm_pitch p) →
  scatter_any pitches ar k !! norm_pitch p = Some (default 0 (ar !! i)).
Proof.
  intros Hkl Hr Hik Hi Hlast. induction k as [|k IH]; [lia|].
  rewrite scatter_any_S.
  pose proof (proj1 (Forall_forall _ _) Hr p (list_elem_of_lookup_2 _ _ _ Hi)) as Hp.
  cbn beta in Hp.
  destruct (decide (i = k)) as [->|Hne].
  - rewrite Hi. cbn [default]. apply list_lookup_insert_eq.
    rewrite length_scatter_any. by apply norm_pitch_lt.
  - destruct (pitches !! k) as [q|] eqn:Hk; [|apply lookup_ge_None_1 in Hk; lia].
    cbn [default]. rewrite list_lookup_insert_ne; [apply IH; lia|].
    apply (Hlast k q); [lia|done].
Qed.

Lemma scatter_any_miss pitches ar k (q : nat) :
  (k ≤ length pitches)%nat → (q < 128)%nat →
  (∀ j p', pitches !! j = Some p' → norm_pitch p' ≠ q) →
  scatter_any pitches ar k !! q = Some 0.
Proof.
  intros Hk Hq Hnot. induction k as [|k IH].
  - unfold scatter_any. cbn [seq foldl]. by apply lookup_replicate_2.
  - rewrite scatter_any_S.
    destruct (pitches !! k) as [p|] eqn:Hpk; [|apply lookup_ge_None_1 in Hpk; lia].
    cbn [default]. rewrite list_lookup_insert_ne; [apply IH; lia|].
    by apply (Hnot k p).
Qed.

(** X4: [unfold] accepts any pitches numpy accepts as column indices of a
    128-column array, negative ones counting from the end; when two pitches
    name the same column the later one wins, and a column no pitch names
    stays zero. *)
Theorem unfold_last_write_wins (a : ndarray) (pitches : list Z) :
  shape1 a = length pitches → Forall (λ p, -128 ≤ p < 128) pitches →
  ∃ res, unfold a pitches = Ok res ∧ shape1 res = 128%nat ∧ shape0 res = shape0 a ∧
         (∀ i p, pitches !! i = Some p →
                 (∀ j p', (i < j)%nat → pitches !! j = Some p' →
                          norm_pitch p' ≠ norm_pitch p) →
                 column res (norm_pitch p) = column a i) ∧
         (∀ q, (q < 128)%nat →
               (∀ j p', pitches !! j = Some p' → norm_pitch p' ≠ q) →
               column res q = replicate (shape0 a) 0).
Proof.
  intros Hcols Hr. eexists. split.
  - unfold unfold. rewrite bool_decide_true by done.
    rewrite unfold_loop by done. rewrite firstn_all. by rewrite decide_True.
  - split; [done|]. split; [by unfold shape0; cbn; rewrite length_map|]. split.
    + intros i p Hi Hlast. unfold column. cbn [rows]. rewrite map_map.
      apply map_ext. intros ar.
      rewrite (scatter_any_last pitches ar (length pitches) i p); try done.
      by eapply lookup_lt_Some.
    + intros q Hq Hnot. unfold column, shape0. cbn [rows]. rewrite map_map.
      rewrite replicate_length_map. apply map_ext. intros ar.
      by rewrite (scatter_any_miss pitches ar (length pitches) q).
Qed.

(** X5: a pitch outside [-128, 128) is no column of the 128: with the
    column counts matching, [unfold] raises [IndexError]. *)
Theorem unfold_bad_pitch (a : ndarray) (pitches : list Z) :
  shape1 a = length pitches → Exists (λ p, ¬ (-128 ≤ p < 128)) pitches →
  unfold a pitches = Raise IndexError.
Proof.
  intros Hcols Hbad. unfold unfold. rewrite bool_decide_true by done.
  rewrite unfold_loop by done. rewrite firstn_all. rewrite decide_False; [done|].
  intros Hall. apply Exists_exists in Hbad as (p & Hin & Hp).
  exact (Hp (proj1 (Forall_forall _ _) Hall p Hin)).
Qed.

(** X6: reading the pitch columns back from what [unfold] returns gives the
    input array: [unfold] followed by the column selection of the loader is
    the identity, for distinct pitches among the 128. *)
Theorem unfold_then_select (a : ndarray) (pitches : list Z) :
  wf_ndarray a → shape1 a = length pitches →
  NoDup pitches → Forall (λ p, 0 ≤ p < 128) pitches →
  ∃ res, unfold a pitches = Ok res ∧ np_take_cols res pitches = Ok a.
Proof.
  intros Hwf Hcols Hnd Hr. eexists. split; [by apply unfold_Ok|].
  rewrite np_take_cols_Ok by (cbn; done). unfold restrict. cbn [rows].
  destruct a as [n rs]. unfold wf_ndarray in Hwf.
  cbn [shape1 rows] in Hwf, Hcols |- *. subst n. do 2 f_equal.
  rewrite map_map. rewrite <- (map_id rs) at 2. apply map_ext_Forall.
  eapply Forall_impl; [exact Hwf|]. intros ar Har. cbn beta in Har |- *.
  apply list_eq. intros i. change (map ?f ?l) with (f <$> l).
  rewrite list_lookup_fmap.
  destruct (pitches !! i) as [p|] eqn:Hp; cbn.
  - rewrite (scatter_hit pitches ar (length pitches) i p); try done.
    + cbn. destruct (ar !! i) eqn:Hai; [done|].
      apply lookup_ge_None_1 in Hai. apply lookup_lt_Some in Hp. lia.
    + by eapply lookup_lt_Some.
  - symmetry. apply lookup_ge_None_2. apply lookup_ge_None_1 in Hp. lia.
Qed.
(** ** File names *)

Lemma split_dot_nonempty (s : string) : split_dot s ≠ [].
Proof.
  induction s as [|c s IH]; cbn; [done|].
  destruct (Ascii.eqb c "."); [done|]. by destruct (split_dot s).
Qed.

Lemma last_split_dot_cons (c : ascii) (s : string) :
  Ascii.eqb c "." = true → last (split_dot (String c s)) = last (split_dot s).
Proof.
  intros Hc. cbn [split_dot]. rewrite Hc.
  pose proof (split_dot_nonempty s). by destruct (split_dot s).
Qed.

Lemma split_dot_no_dot (s : string) : has_dot s = false → split_dot s = [s].
Proof.
  induction s as [|c s IH]; [done|]. cbn [has_dot split_dot].
  intros [Hc Hs]%orb_false_elim. rewrite Hc, (IH Hs). done.
Qed.

Lemma split_dot_append (s e : string) :
  ∃ seg segs, split_dot (String.append s (String "." e)) = seg :: segs ∧
              segs ≠ [] ∧ last segs = last (split_dot e).
Proof.
  induction s as [|c s (seg & segs & IH & Hne & Hlast)].
  - change (String.append EmptyString (String "." e)) with (String "." e).
    cbn [split_dot]. change (Ascii.eqb "." ".") with true. cbn iota.
    exists EmptyString, (split_dot e). split; [done|].
    split; [apply split_dot_nonempty|done].
  - change (String.append (String c s) (String "." e))
      with (String c (String.append s (String "." e))).
    cbn [split_dot]. rewrite IH. destruct (Ascii.eqb c ".").
    + exists EmptyString, (seg :: segs). split; [done|]. split; [done|].
      rewrite <- Hlast. by destruct segs.
    + exists (String c seg), segs. done.
Qed.

Lemma last_split_dot_append (s e : string) :
  last (split_dot (String.append s (String "." e))) = last (split_dot e).
Proof.
  destruct (split_dot_append s e) as (seg & segs & -> & Hne & <-).
  by destruct segs.
Qed.

(** X7: the extension the loader tests is the text after the last dot of
    the file name, and the whole name when it has no dot: [beat.npy] and
    [a.b.npy] are read, and so is a file called [npy]; [beat.npy.bak] is
    not. *)
Theorem extension_after_last_dot (s e : string) :
  has_dot e = false →
  extension (String.append s (String "." e)) = e ∧ extension e = e.
Proof.
  intros He. unfold extension. rewrite last_split_dot_append.
  by rewrite (split_dot_no_dot e He).
Qed.

(** ** The loader on files it cannot use *)

Lemma count_active_bound (rs : list (list Z)) (n m : nat) :
  Forall (λ r, length r = m) rs →
  0 ≤ foldr Z.add 0 (map (λ v, Z.b2z (bool_decide (0 < v))) (concat rs))
    ≤ Z.of_nat (length rs) * Z.of_nat m.
Proof.
  induction 1 as [|r rs Hr _ IH]; [cbn; lia|].
  cbn [concat length]. rewrite map_app, foldr_app.
  assert (∀ (l : list Z) acc,
            acc ≤ foldr Z.add acc (map (λ v, Z.b2z (bool_decide (0 < v))) l)
                ≤ acc + Z.of_nat (length l)) as Hrow.
  { induction l as [|v l IHl]; intros acc; cbn [map foldr length]; [lia|].
    specialize (IHl acc). destruct (bool_decide (0 < v)); cbn [Z.b2z]; lia. }
  specialize (Hrow r (foldr Z.add 0 (map (λ v, Z.b2z (bool_decide (0 < v))) (concat rs)))).
  rewrite Hr in Hrow. lia.
Qed.

Section LoaderEdges.
Context `{Config} `{External}.

(** X8: a recording too short to hold MIN_HITS active cells in the pitch
    columns, one with fewer than MIN_HITS / P time steps, adds nothing to
    the event sequence whatever it contains. *)
Theorem short_file_discarded (root : string) (file : string * ndarray)
    (config_seq : list Z) (w : world) :
  readable file →
  Z.of_nat (shape0 file.2) * Z.of_nat num_pitches < MIN_HITS →
  contribution file = [] ∧
  ∃ w', load_file root config_seq file w = (Ok config_seq, w').
Proof.
  intros Hread Hshort.
  assert (contribution file = []) as Hc.
  { unfold contribution. destruct (negb _); [done|].
    rewrite bool_decide_true; [done|].
    pose proof (count_active_bound (rows (restrict file.2 PITCHES)) 0 num_pitches
                  (wf_restrict file.2 PITCHES)) as Hb.
    unfold count_active. unfold restrict in Hb |- *. cbn [rows] in Hb |- *.
    rewrite length_map in Hb. unfold shape0 in Hshort. lia. }
  split; [done|]. eexists. rewrite load_file_run by done.
  by rewrite Hc, app_nil_r.
Qed.

(** X9: an [npy] file whose array has at least one row and lacks one of the
    pitch columns makes the loader raise [IndexError] right after reading it:
    nothing is printed for it, the files after it in the directory are not
    read, and the files before it have been read and printed. *)
Theorem missing_column_aborts (root : string) (before after : list (string * ndarray))
    (file : string * ndarray) (config_seq : list Z) (w : world) :
  Forall (λ f, String.eqb (extension f.1) "npy" = true → readable f) before →
  String.eqb (extension file.1) "npy" = true →
  rows file.2 ≠ [] →
  Exists (λ p, ¬ (- Z.of_nat (shape1 file.2) ≤ p < Z.of_nat (shape1 file.2))) PITCHES →
  foldM (load_file root) config_seq (before ++ file :: after) w
  = (Raise IndexError,
     World (fs w) (gen w)
       (out w ++ flat_map (load_events root) before ++ [EvLoad (root, file.1)])).
Proof.
  intros Hbefore Hext Hrows Hbad.
  assert (∀ cs w0, load_file root cs file w0
          = (Raise IndexError, World (fs w0) (gen w0) (out w0 ++ [EvLoad (root, file.1)])))
    as Hfile.
  { intros cs w0. unfold load_file. rewrite Hext. cbn [negb].
    unfold np_load, bind, emit, ret, lift. cbn [fst snd fs gen out].
    unfold np_take_cols. destruct (rows file.2) as [|r0 rs] eqn:Hrs; [done|].
    rewrite (mapM_result_Raise _ IndexError); [done| |].
    - apply Forall_forall. intros p _. unfold np_index.
      repeat case_bool_decide; eauto.
    - eapply Exists_impl; [exact Hbad|]. intros p Hp. by apply np_index_out. }
  revert config_seq w. induction Hbefore as [|f before Hf _ IH]; intros config_seq w.
  - cbn [app foldM flat_map]. unfold bind. by rewrite Hfile.
  - cbn [app foldM flat_map]. unfold bind. rewrite load_file_run by done.
    rewrite IH. cbn [fs gen out]. by rewrite <- !app_assoc.
Qed.

(** X10: on a corpus it can read, with at least PHRASE_LEN events,
    [prepare_data] returns the event sequence together with the examples of
    that sequence; it walks the input directory once, reads and prints one
    count for every [npy] file and nothing for the other files, and leaves
    the random state alone. *)
Theorem prepare_data_run (w : world) :
  corpus_readable (fs w) →
  (PHRASE_LEN ≤ length (event_sequence (fs w)))%nat →
  prepare_data w
  = (Ok (event_sequence (fs w),
         map (window_one_hot (event_sequence (fs w)))
             (seq 0 (length (event_sequence (fs w)) - PHRASE_LEN)),
         map (label_one_hot (event_sequence (fs w)))
             (seq 0 (length (event_sequence (fs w)) - PHRASE_LEN))),
     World (fs w) (gen w) (out w ++ EvWalk MIDI_IN_DIR :: corpus_events (fs w))) ∧
  Forall (λ id, 0 ≤ id < Z.of_nat num_classes) (event_sequence (fs w)).
Proof.
  intros Hread Hlong. split; [|apply event_sequence_range].
  unfold prepare_data, bind. rewrite load_config_seq_run by done.
  unfold lift. rewrite construct_examples_Ok by (done || apply event_sequence_range).
  done.
Qed.

End LoaderEdges.
(** ** One-hot rows *)

Lemma one_hot_split (n : nat) (c : Z) :
  0 ≤ c < Z.of_nat n →
  one_hot n c = replicate (Z.to_nat c) 0 ++ 1 :: replicate (n - S (Z.to_nat c)) 0.
Proof. intros Hc. unfold one_hot. apply insert_replicate_lt. lia. Qed.

Lemma sum_replicate_0 (n : nat) (acc : Z) : foldr Z.add acc (replicate n 0) = acc.
Proof. induction n as [|n IH]; [done|]. cbn. by rewrite IH. Qed.

Lemma one_hot_row (n : nat) (c : Z) :
  0 ≤ c < Z.of_nat n →
  length (one_hot n c) = n ∧
  Forall (λ v, v = 0 ∨ v = 1) (one_hot n c) ∧
  foldr Z.add 0 (one_hot n c) = 1.
Proof.
  intros Hc. split; [|split].
  - unfold one_hot. by rewrite length_insert, length_replicate.
  - rewrite one_hot_split by done. apply Forall_app. split.
    + apply Forall_forall. intros v [-> _]%elem_of_replicate. by left.
    + apply Forall_cons_2; [by right|].
      apply Forall_forall. intros v [-> _]%elem_of_replicate. by left.
  - rewrite one_hot_split by done. rewrite foldr_app. cbn [foldr].
    by rewrite !sum_replicate_0.
Qed.

Lemma window_slides {A} (l : list A) (i w : nat) (x : A) :
  (0 < w)%nat → l !! (i + w)%nat = Some x →
  take w (drop (S i) l) = drop 1 (take w (drop i l)) ++ [x].
Proof.
  intros Hw Hx.
  assert (drop i l !! w = Some x) as Hd by by rewrite lookup_drop.
  replace (S i) with (i + 1)%nat by lia. rewrite <- drop_drop.
  rewrite take_drop_commute. change (1 + w)%nat with (S w).
  rewrite (take_S_r _ _ _ Hd). rewrite drop_app_le; [done|].
  rewrite length_take. apply lookup_lt_Some in Hd. lia.
Qed.

Section ExampleShape.
Context `{Config}.

(** X11: every row of every example window and every label is a one-hot
    row: 2^P entries, each 0 or 1, summing to 1.  Successive examples
    overlap: the window of example [i + 1] is the window of example [i]
    without its first row, followed by the label of example [i]. *)
Theorem examples_are_one_hot_and_slide (config_seq : list Z) :
  Forall (λ id, 0 ≤ id < Z.of_nat num_classes) config_seq →
  (0 < PHRASE_LEN)%nat → (PHRASE_LEN ≤ length config_seq)%nat →
  ∃ X y, construct_examples config_seq = Ok (X, y) ∧
         (∀ i window row, X !! i = Some window → row ∈ window →
            length row = num_classes ∧ Forall (λ v, v = 0 ∨ v = 1) row ∧
            foldr Z.add 0 row = 1) ∧
         (∀ i label, y !! i = Some label →
            length label = num_classes ∧ Forall (λ v, v = 0 ∨ v = 1) label ∧
            foldr Z.add 0 label = 1) ∧
         (∀ i window label next,
            X !! i = Some window → y !! i = Some label → X !! S i = Some next →
            next = drop 1 window ++ [label]).
Proof.
  intros Hids Hpos Hlen. do 2 eexists. split; [by apply construct_examples_Ok|].
  set (n := (length config_seq - PHRASE_LEN)%nat).
  assert (∀ i v, map (window_one_hot config_seq) (seq 0 n) !! i = Some v →
                 (i < n)%nat ∧ v = window_one_hot config_seq i) as HX.
  { intros i v Hi. change (map ?f ?l) with (f <$> l) in Hi.
    apply list_lookup_fmap_Some in Hi as (k & -> & Hk).
    apply lookup_seq in Hk as [-> Hk]. done. }
  assert (∀ i v, map (label_one_hot config_seq) (seq 0 n) !! i = Some v →
                 (i < n)%nat ∧ v = label_one_hot config_seq i) as Hy.
  { intros i v Hi. change (map ?f ?l) with (f <$> l) in Hi.
    apply list_lookup_fmap_Some in Hi as (k & -> & Hk).
    apply lookup_seq in Hk as [-> Hk]. done. }
  split; [|split].
  - intros i window row [Hi ->]%HX Hrow. unfold window_one_hot in Hrow.
    apply list_elem_of_In, in_map_iff in Hrow as (c & <- & Hc%list_elem_of_In).
    apply one_hot_row.
    assert (Forall (λ id, 0 ≤ id < Z.of_nat num_classes)
              (take PHRASE_LEN (drop i config_seq))) as Hw
      by (apply Forall_take, Forall_drop; done).
    exact (proj1 (Forall_forall _ _) Hw c Hc).
  - intros i label [Hi ->]%Hy. unfold label_one_hot.
    destruct (config_seq !! (i + PHRASE_LEN)%nat) as [c|] eqn:Hc;
      [|apply lookup_ge_None_1 in Hc; lia].
    cbn [default]. apply one_hot_row.
    apply (proj1 (Forall_forall _ _) Hids c). by eapply list_elem_of_lookup_2.
  - intros i window label next [Hi ->]%HX [_ ->]%Hy [Hi' ->]%HX.
    unfold window_one_hot, label_one_hot.
    destruct (config_seq !! (i + PHRASE_LEN)%nat) as [c|] eqn:Hc;
      [|apply lookup_ge_None_1 in Hc; lia].
    cbn [default]. rewrite (window_slides _ _ _ c) by done.
    rewrite map_app. cbn [map]. f_equal.
    change (map ?f ?l) with (f <$> l). by rewrite fmap_drop.
Qed.

End ExampleShape.

(** ** The sampler and the draw *)

Lemma argmax_from_zeros (best besti i : Z) (n : nat) :
  0 ≤ best → argmax_from best besti i (replicate n 0) = besti.
Proof.
  intros Hb. revert i. induction n as [|n IH]; intros i; [done|].
  cbn [replicate argmax_from]. rewrite bool_decide_false by lia. apply IH.
Qed.

Lemma argmax_from_one_hot (besti i : Z) (n j : nat) :
  (j < n)%nat →
  argmax_from 0 besti i (<[j := 1]> (replicate n 0)) = i + Z.of_nat j.
Proof.
  revert besti i j. induction n as [|n IH]; intros besti i j Hj; [lia|].
  destruct j as [|j]; cbn [replicate insert list_insert argmax_from].
  - rewrite bool_decide_true by lia. rewrite argmax_from_zeros by lia. lia.
  - rewrite bool_decide_false by lia. rewrite IH by lia. lia.
Qed.

Lemma np_argmax_one_hot (n j : nat) :
  (j < n)%nat → np_argmax (<[j := 1]> (replicate n 0)) = Ok (Z.of_nat j).
Proof.
  intros Hj. destruct n as [|n]; [lia|]. destruct j as [|j].
  - cbn. by rewrite argmax_from_zeros.
  - cbn [replicate insert list_insert np_argmax]. rewrite argmax_from_one_hot by lia.
    f_equal. lia.
Qed.

Section SamplerDraw.
Context `{External}.

(** X12: [sample] hands the temperature-scaled probabilities to one
    multinomial draw and returns the outcome the draw picked: when the draw
    answers with a single count 1 at position [j], [sample] returns [j]; it
    moves the random state by that one draw and does no input or output. *)
Theorem sample_returns_draw (a : list float) (temperature : float) (w : world)
    (j : nat) (g' : rng) :
  (j < length a)%nat →
  np_random_multinomial (gen w) 1 (tempered a temperature) 1
  = (Ok [<[j := 1]> (replicate (length a) 0)], g') →
  sample a temperature w = (Ok (Z.of_nat j), World (fs w) g' (out w)).
Proof.
  intros Hj Hdraw. unfold sample, bind, multinomial, lift.
  unfold tempered in Hdraw. rewrite Hdraw. cbn [concat]. rewrite app_nil_r.
  by rewrite np_argmax_one_hot.
Qed.

End SamplerDraw.
(** ** Rendering generated ids *)

Lemma binary_digits_lookup (P : nat) (i : Z) (j : nat) :
  (j < P)%nat →
  binary_digits P i !! j = Some (Z.b2z (Z.testbit i (Z.of_nat (P - 1 - j)))).
Proof.
  intros Hj. unfold binary_digits. change (map ?f ?l) with (f <$> l).
  rewrite list_lookup_fmap, lookup_seq_lt by done. done.
Qed.

Section Rendering.
Context `{Config}.

(** X13: what [generate] hands to the MIDI writer.  For ids in range and
    output pitches that are distinct slots of the 128, one per modelled
    pitch, decoding and unfolding gives one row of 128 per id in which the
    column of output pitch [j] holds 120 where bit [P - 1 - j] of the id is
    set and 0 where it is not, and every other column is 0. *)
Theorem decode_then_unfold (ids : list Z) :
  ids ≠ [] → Forall (λ id, 0 ≤ id < Z.of_nat num_classes) ids →
  length OUT_PITCHES = num_pitches → NoDup OUT_PITCHES →
  Forall (λ p, 0 ≤ p < 128) OUT_PITCHES →
  ∃ decoded rendered,
    decode ids = Ok decoded ∧ unfold decoded OUT_PITCHES = Ok rendered ∧
    shape1 rendered = 128%nat ∧ shape0 rendered = length ids ∧
    (∀ j p, OUT_PITCHES !! j = Some p →
       column rendered (Z.to_nat p)
       = map (λ id, 120 * Z.b2z (Z.testbit id (Z.of_nat (num_pitches - 1 - j)))) ids) ∧
    (∀ q, (q < 128)%nat → Z.of_nat q ∉ OUT_PITCHES →
       column rendered q = replicate (length ids) 0).
Proof.
  intros Hne Hids Hlen Hnd Hr. do 2 eexists.
  split; [by apply decode_Ok|]. split; [by apply unfold_Ok|].
  split; [done|]. split; [by unfold shape0; cbn; rewrite !length_map|]. split.
  - intros j p Hj. unfold column. cbn [rows]. rewrite !map_map.
    apply map_ext. intros id.
    rewrite (scatter_hit OUT_PITCHES _ (length OUT_PITCHES) j p); try done.
    2:{ by eapply lookup_lt_Some. }
    change (map ?f ?l) with (f <$> l). rewrite list_lookup_fmap.
    rewrite binary_digits_lookup; [done|].
    apply lookup_lt_Some in Hj. lia.
  - intros q Hq Hnot. unfold column. cbn [rows]. rewrite !map_map.
    rewrite replicate_length_map. apply map_ext. intros id.
    by rewrite (scatter_miss OUT_PITCHES _ (length OUT_PITCHES) q).
Qed.

End Rendering.

(** ** The generator on seeds of other lengths *)

Lemma enumerate_middle {A} (l1 l2 : list A) (x : A) :
  ∃ rest, enumerate (l1 ++ x :: l2) = enumerate l1 ++ (Z.of_nat (length l1), x) :: rest.
Proof.
  unfold enumerate. rewrite imap_app, imap_cons. eexists.
  by rewrite Nat.add_0_r.
Qed.

Section GeneratorEdges.
Context `{Config} `{External}.


Lemma one_hot_phrase_long (phrase : list Z) :
  (PHRASE_LEN < length phrase)%nat →
  Forall (λ id, 0 ≤ id < Z.of_nat num_classes) phrase →
  one_hot_phrase phrase = Raise IndexError.
Proof.
  intros Hlen Hids. unfold one_hot_phrase, np_zeros3.
  rewrite bool_decide_false by lia. cbn [mbind result_bind].
  change (Z.to_nat 1) with 1%nat. cbn [replicate].
  destruct (phrase !! PHRASE_LEN) as [c|] eqn:Hc;
    [|apply lookup_ge_None_1 in Hc; lia].
  rewrite <- (take_drop_middle phrase PHRASE_LEN c Hc).
  assert (length (take PHRASE_LEN phrase) = PHRASE_LEN) as Htake
    by (rewrite length_take; lia).
  destruct (enumerate_middle (take PHRASE_LEN phrase) (drop (S PHRASE_LEN) phrase) c)
    as (rest & ->).
  rewrite foldM_result_app.
  rewrite (set3_loop 1 0 _ 0 (take PHRASE_LEN phrase) PHRASE_LEN num_classes);
    [|done|lia|by apply Forall_take].
  rewrite Htake, Nat.sub_diag. cbn [replicate mbind result_bind foldM_result].
  rewrite app_nil_r. cbn [insert list_insert].
  match goal with
  | |- context [set3 ?x 0 ?t c 1] =>
      assert (set3 x 0 t c 1 = Raise IndexError) as ->; [|done]
  end.
  unfold set3, np_update. cbn [length].
  rewrite (np_index_Ok 1 0) by (cbn; lia). change (Z.to_nat 0) with 0%nat.
  cbn [mbind result_bind lookup list_lookup].
  unfold set2, np_update. rewrite length_map, Htake.
  rewrite np_index_out by lia. done.
Qed.

(** X14: a seed longer than PHRASE_LEN does not fit the classifier's input:
    the first iteration raises [IndexError] when it writes row PHRASE_LEN of
    the one-hot array, before the classifier or the random generator is
    asked anything. *)
Theorem seed_too_long (m : model) (seed : list Z) (temperature : float) (k : nat)
    (w : world) :
  (PHRASE_LEN < length seed)%nat →
  Forall (λ id, 0 ≤ id < Z.of_nat num_classes) seed →
  generate_loop m seed temperature (S k) w = (Raise IndexError, w).
Proof.
  intros Hlen Hids. unfold generate_loop. cbn [repeatM].
  unfold bind, generate_step, lift. by rewrite one_hot_phrase_long.
Qed.

Hypothesis predict_shape : predict_contract.
Hypothesis multinomial_shape : multinomial_contract.





End GeneratorEdges.
(** ** What [generate] and [run] leave behind *)

Section GenerateTrace.
Context `{Config} `{External}.

(** X16: asked for no ids, [generate] has nothing to stack: after
    recording the call and printing the seed it raises [ValueError]; no
    file is saved and the random state is untouched. *)
Theorem generate_zero_length (m : model) (seed : list Z) (mid_name : formatted)
    (temperature : float) (w : world) :
  seed ≠ [] → Forall (λ id, 0 ≤ id < Z.of_nat num_classes) seed →
  ∃ seed_array,
    decode seed = Ok seed_array ∧
    generate m seed mid_name temperature 0 w
    = (Raise ValueError,
       World (fs w) (gen w)
         (out w ++ [EvCall_generate mid_name temperature 0; EvPrintArray seed_array])).
Proof.
  intros Hne Hseed. eexists. split; [by apply decode_Ok|].
  unfold generate, generate_loop, bind, emit, lift, ret. cbn [repeatM fs gen out].
  rewrite decode_Ok by done. unfold ret. cbn [fst snd].
  rewrite decode_nil. by rewrite <- app_assoc.
Qed.

Hypothesis predict_shape : predict_contract.
Hypothesis multinomial_shape : multinomial_contract.



End GenerateTrace.
(** ** Where [run] stops *)

Section RunEdges.
Context `{Config} `{External}.

(** X19: on an empty corpus, or one whose files are all skipped or
    discarded, the module stops with the [ValueError] of the dataset
    builder: it has walked the input directory and read and counted the
    [npy] files, and it has not loaded the weights, called [generate] or
    saved anything. *)
Theorem main_stops_on_silent_corpus (w : world) :
  (length PITCHES ≤ 8)%nat → (0 < PHRASE_LEN)%nat →
  corpus_readable (fs w) →
  Forall (λ dir, Forall filtered dir.2) (fs w) →
  main w
  = (Raise ValueError,
     World (fs w) (np_random_seed 10)
       (out w ++ EvWalk MIDI_IN_DIR :: corpus_events (fs w))).
Proof.
  intros Hpitches Hpos Hread Hfilt.
  unfold main, bind, lift, check_pitches. rewrite bool_decide_true by lia.
  unfold run, bind, prepare_data, bind.
  rewrite load_config_seq_run by done. cbn [fs gen out].
  rewrite filtered_event_sequence by done. unfold lift.
  rewrite construct_examples_short; [done|]. cbn [length]. lia.
Qed.

(** X20: [run] builds its seed with 4 columns.  With a number of pitches
    other than 4 the seed has no entry in the table: after the dataset is
    built and the weights are loaded, the first [encode(seed)] raises
    [KeyError], so [generate] is never called and nothing is saved. *)
Theorem run_needs_four_pitches (w : world) :
  num_pitches ≠ 4%nat →
  corpus_readable (fs w) →
  (PHRASE_LEN ≤ length (event_sequence (fs w)))%nat →
  run w
  = (Raise KeyError,
     World (fs w) (gen w)
       (out w ++ EvWalk MIDI_IN_DIR :: corpus_events (fs w)
              ++ [EvLoadWeights (MODEL_OUT_DIR, MODEL_NAME)])).
Proof.
  intros Hpitches Hread Hlong.
  unfold run, prepare_data, bind at 1 2 3.
  rewrite load_config_seq_run by done. unfold lift at 1.
  rewrite construct_examples_Ok by (done || apply event_sequence_range).
  unfold ret at 1. unfold bind at 1. unfold emit at 1. cbn [fs gen out].
  destruct run_seed_Ok as (seed_rows & -> & Hrows & Hcols).
  unfold bind at 1. unfold lift at 1.
  cbn [forM_]. change (xrange 5) with [0; 1; 2; 3; 4]. cbn [forM_].
  unfold bind at 1. unfold bind at 1. unfold bind at 1. unfold lift at 1.
  rewrite encode_KeyError; [|done|cbn; congruence|by destruct seed_rows].
  by rewrite <- app_assoc.
Qed.

End RunEdges.

(** ** The generation step of [train] *)

Section TrainGeneration.
Context `{Config} `{External}.

Hypothesis predict_shape : predict_contract.
Hypothesis multinomial_shape : multinomial_contract.


End TrainGeneration.
(** ** Activity outside the pitch columns *)

Lemma sum_threshold_nonpositive (l : list Z) :
  Forall (λ v, v ≤ 0) l →
  foldr Z.add 0 (map (λ v, Z.b2z (bool_decide (0 < v))) l) = 0.
Proof.
  induction 1 as [|v l Hv _ IH]; [done|].
  cbn [map foldr]. rewrite IH, bool_decide_false by lia. done.
Qed.

Section PitchColumnsOnly.
Context `{Config} `{External}.

(** X22: only the pitch columns count towards MIN_HITS.  A recording with no
    cell above 0 in the pitch columns is discarded when MIN_HITS is
    positive, however much happens in its other columns. *)
Theorem silent_in_pitch_columns (root : string) (file : string * ndarray)
    (config_seq : list Z) (w : world) :
  0 < MIN_HITS → readable file →
  Forall (λ r, Forall (λ p, default 0 (r !! Z.to_nat p) ≤ 0) PITCHES) (rows file.2) →
  count_active (restrict file.2 PITCHES) = 0 ∧
  contribution file = [] ∧
  ∃ w', load_file root config_seq file w = (Ok config_seq, w').
Proof.
  intros Hmin Hread Hsilent.
  assert (count_active (restrict file.2 PITCHES) = 0) as Hcount.
  { unfold count_active, restrict. cbn [rows]. apply sum_threshold_nonpositive.
    apply Forall_concat, Forall_map. eapply Forall_impl; [exact Hsilent|].
    intros r Hr. cbn beta in Hr |- *. by apply Forall_map. }
  assert (contribution file = []) as Hc.
  { unfold contribution. destruct (negb _); [done|].
    rewrite bool_decide_true; [done|]. lia. }
  split; [done|]. split; [done|]. eexists. rewrite load_file_run by done.
  by rewrite Hc, app_nil_r.
Qed.

End PitchColumnsOnly.
(** ** The further properties at concrete inputs *)

Lemma encode_binary_value_witness :
  wf_ndarray (NdArray 4 [[1; 0; 0; 1]]) ∧ shape1 (NdArray 4 [[1; 0; 0; 1]]) = @num_pitches source ∧
  wf_ndarray (NdArray 4 [[0; 9; 0; 0]; [0; 0; 0; -3]]) ∧
  shape1 (NdArray 4 [[0; 9; 0; 0]; [0; 0; 0; -3]]) = @num_pitches source ∧
  @encode source (NdArray 4 [[1; 0; 0; 1]]) = Ok [9] ∧
  ∃ ids_a ids_b,
    @encode source (NdArray 4 [[1; 0; 0; 1]]) = Ok ids_a ∧
    @encode source (NdArray 4 [[0; 9; 0; 0]; [0; 0; 0; -3]]) = Ok ids_b ∧
    @encode source (NdArray 4 [[1; 0; 0; 1]; [0; 9; 0; 0]; [0; 0; 0; -3]]) = Ok (ids_a ++ ids_b).
Proof.
  assert (wf_ndarray (NdArray 4 [[1; 0; 0; 1]])) as Ha by (repeat constructor).
  assert (wf_ndarray (NdArray 4 [[0; 9; 0; 0]; [0; 0; 0; -3]])) as Hb by (repeat constructor).
  split; [exact Ha|]. split; [reflexivity|]. split; [exact Hb|]. split; [reflexivity|].
  exact (@encode_binary_value source _ _ Ha eq_refl Hb eq_refl).
Defined.

Lemma encode_wrong_width_witness :
  wf_ndarray (NdArray 3 [[1; 0; 1]]) ∧ shape1 (NdArray 3 [[1; 0; 1]]) ≠ @num_pitches source ∧
  rows (NdArray 3 [[1; 0; 1]]) ≠ [] ∧
  @encode source (NdArray 3 [[1; 0; 1]]) = Raise KeyError.
Proof.
  assert (wf_ndarray (NdArray 3 [[1; 0; 1]])) as Hwf by (repeat constructor).
  assert (shape1 (NdArray 3 [[1; 0; 1]]) ≠ @num_pitches source) as Hcols by (cbn; lia).
  assert (rows (NdArray 3 [[1; 0; 1]]) ≠ []) as Hne by discriminate.
  split; [exact Hwf|]. split; [exact Hcols|]. split; [exact Hne|].
  exact (proj1 (@encode_wrong_width source (NdArray 3 [[1; 0; 1]])) Hwf Hcols Hne).
Defined.

Lemma decode_errors_witness :
  Exists (λ id, ¬ (0 ≤ id < Z.of_nat (@num_classes source))) [3; 16; 5] ∧
  @decode source [3; 16; 5] = Raise KeyError.
Proof.
  assert (Exists (λ id, ¬ (0 ≤ id < Z.of_nat (@num_classes source))) [3; 16; 5]) as Hbad.
  { apply Exists_cons_tl, Exists_cons_hd. cbn. lia. }
  split; [exact Hbad|]. exact (proj2 (@decode_errors source) [3; 16; 5] Hbad).
Defined.

Lemma unfold_last_write_wins_witness :
  shape1 (NdArray 3 [[7; 8; 9]]) = length [36; -1; 36] ∧
  Forall (λ p, -128 ≤ p < 128) [36; -1; 36] ∧
  ∃ res, unfold (NdArray 3 [[7; 8; 9]]) [36; -1; 36] = Ok res ∧
         column res 36 = [9] ∧ column res 127 = [8] ∧ column res 0 = [0].
Proof.
  assert (Forall (λ p, -128 ≤ p < 128) [36; -1; 36]) as Hr
    by (repeat (apply Forall_cons_2; [lia|]); apply Forall_nil_2).
  split; [reflexivity|]. split; [exact Hr|].
  destruct (unfold_last_write_wins (NdArray 3 [[7; 8; 9]]) [36; -1; 36] eq_refl Hr)
    as (res & Hrun & _ & _ & Hhit & Hmiss).
  exists res. split; [exact Hrun|]. split; [|split].
  - apply (Hhit 2%nat 36 eq_refl). intros j p' Hj Hp'.
    destruct j as [|[|[|j]]]; [lia..|discriminate].
  - apply (Hhit 1%nat (-1) eq_refl). intros j p' Hj Hp'.
    destruct j as [|[|[|j]]]; [lia|lia| |discriminate].
    injection Hp' as <-. vm_compute. lia.
  - apply (Hmiss 0%nat); [lia|]. intros j p' Hp'.
    destruct j as [|[|[|j]]]; [| | |discriminate];
      injection Hp' as <-; vm_compute; lia.
Defined.

Lemma unfold_bad_pitch_witness :
  shape1 (NdArray 2 [[7; 8]]) = length [36; 128] ∧
  Exists (λ p, ¬ (-128 ≤ p < 128)) [36; 128] ∧
  unfold (NdArray 2 [[7; 8]]) [36; 128] = Raise IndexError.
Proof.
  assert (Exists (λ p, ¬ (-128 ≤ p < 128)) [36; 128]) as Hbad
    by (apply Exists_cons_tl, Exists_cons_hd; lia).
  split; [reflexivity|]. split; [exact Hbad|].
  exact (unfold_bad_pitch (NdArray 2 [[7; 8]]) [36; 128] eq_refl Hbad).
Defined.

Lemma unfold_then_select_witness :
  wf_ndarray (NdArray 4 [[1; 0; 1; 0]; [0; 5; 0; 7]]) ∧
  shape1 (NdArray 4 [[1; 0; 1; 0]; [0; 5; 0; 7]]) = length [36; 38; 42; 51] ∧
  NoDup [36; 38; 42; 51] ∧ Forall (λ p, 0 ≤ p < 128) [36; 38; 42; 51] ∧
  ∃ res, unfold (NdArray 4 [[1; 0; 1; 0]; [0; 5; 0; 7]]) [36; 38; 42; 51] = Ok res ∧
         np_take_cols res [36; 38; 42; 51] = Ok (NdArray 4 [[1; 0; 1; 0]; [0; 5; 0; 7]]).
Proof.
  assert (wf_ndarray (NdArray 4 [[1; 0; 1; 0]; [0; 5; 0; 7]])) as Hwf by (repeat constructor).
  assert (NoDup [36; 38; 42; 51]) as Hnd
    by (apply (bool_decide_unpack _); vm_compute; reflexivity).
  assert (Forall (λ p, 0 ≤ p < 128) [36; 38; 42; 51]) as Hr
    by (repeat (apply Forall_cons_2; [lia|]); apply Forall_nil_2).
  split; [exact Hwf|]. split; [reflexivity|]. split; [exact Hnd|]. split; [exact Hr|].
  exact (unfold_then_select (NdArray 4 [[1; 0; 1; 0]; [0; 5; 0; 7]]) [36; 38; 42; 51]
           Hwf eq_refl Hnd Hr).
Defined.

Lemma extension_after_last_dot_witness :
  has_dot "npy" = false ∧
  extension (String.append "a.b" (String "." "npy")) = "npy"%string ∧
  extension "npy" = "npy"%string.
Proof.
  split; [reflexivity|]. exact (extension_after_last_dot "a.b" "npy" eq_refl).
Defined.

Lemma short_file_discarded_witness :
  @readable source one_step_file ∧
  Z.of_nat (shape0 one_step_file.2) * Z.of_nat (@num_pitches source) < @MIN_HITS source ∧
  @contribution source one_step_file = [] ∧
  ∃ w', @load_file source (stub 16) "dir" [5] one_step_file demo_world = (Ok [5], w').
Proof.
  assert (@readable source one_step_file) as Hread.
  { unfold readable. cbn. repeat (apply Forall_cons_2; [lia|]). apply Forall_nil_2. }
  assert (Z.of_nat (shape0 one_step_file.2) * Z.of_nat (@num_pitches source)
          < @MIN_HITS source) as Hshort by (vm_compute; reflexivity).
  split; [exact Hread|]. split; [exact Hshort|].
  exact (@short_file_discarded source (stub 16) "dir"%string one_step_file [5] demo_world
           Hread Hshort).
Defined.

Lemma missing_column_aborts_witness :
  Forall (λ f, String.eqb (extension f.1) "npy" = true → @readable source f) [demo_file] ∧
  String.eqb (extension narrow_file.1) "npy" = true ∧
  rows narrow_file.2 ≠ [] ∧
  Exists (λ p, ¬ (- Z.of_nat (shape1 narrow_file.2) ≤ p < Z.of_nat (shape1 narrow_file.2)))
         (@PITCHES source) ∧
  @foldM (stub 16) _ _ (@load_file source (stub 16) "dir") []
    ([demo_file] ++ narrow_file :: [one_step_file]) demo_world
  = (Raise IndexError,
     @World (stub 16) (fs demo_world) (gen demo_world)
       (out demo_world ++ flat_map (@load_events source (stub 16) "dir") [demo_file]
          ++ [@EvLoad (stub 16) ("dir"%string, narrow_file.1)])).
Proof.
  assert (Forall (λ f, String.eqb (extension f.1) "npy" = true → @readable source f)
            [demo_file]) as Hbefore.
  { apply Forall_cons_2; [readable_file|apply Forall_nil_2]. }
  assert (Exists (λ p, ¬ (- Z.of_nat (shape1 narrow_file.2) ≤ p
                          < Z.of_nat (shape1 narrow_file.2))) (@PITCHES source)) as Hbad.
  { do 2 apply Exists_cons_tl. apply Exists_cons_hd. cbn. lia. }
  assert (rows narrow_file.2 ≠ []) as Hrows by discriminate.
  split; [exact Hbefore|]. split; [reflexivity|]. split; [exact Hrows|].
  split; [exact Hbad|].
  exact (@missing_column_aborts source (stub 16) "dir"%string [demo_file] [one_step_file]
           narrow_file [] demo_world Hbefore eq_refl Hrows Hbad).
Defined.

Lemma prepare_data_run_witness :
  @corpus_readable source (fs demo_world) ∧
  (@PHRASE_LEN source ≤ length (@event_sequence source (fs demo_world)))%nat ∧
  (@prepare_data source (stub 16) demo_world).1
  = Ok (@event_sequence source (fs demo_world),
        map (@window_one_hot source (@event_sequence source (fs demo_world)))
            (seq 0 (length (@event_sequence source (fs demo_world)) - @PHRASE_LEN source)),
        map (@label_one_hot source (@event_sequence source (fs demo_world)))
            (seq 0 (length (@event_sequence source (fs demo_world)) - @PHRASE_LEN source))).
Proof.
  split; [exact demo_fs_readable|]. split; [exact demo_fs_long|].
  exact (f_equal fst (proj1 (@prepare_data_run source (stub 16) demo_world
                               demo_fs_readable demo_fs_long))).
Defined.

Lemma examples_are_one_hot_and_slide_witness :
  Forall (λ id, 0 ≤ id < Z.of_nat (@num_classes source)) demo_sequence ∧
  (0 < @PHRASE_LEN source)%nat ∧ (@PHRASE_LEN source ≤ length demo_sequence)%nat ∧
  ∃ X y, @construct_examples source demo_sequence = Ok (X, y) ∧
         (∀ i window label next,
            X !! i = Some window → y !! i = Some label → X !! S i = Some next →
            next = drop 1 window ++ [label]).
Proof.
  assert (0 < @PHRASE_LEN source)%nat as Hpos by (vm_compute; lia).
  assert (@PHRASE_LEN source ≤ length demo_sequence)%nat as Hlen by (vm_compute; lia).
  split; [exact demo_sequence_range|]. split; [exact Hpos|]. split; [exact Hlen|].
  destruct (@examples_are_one_hot_and_slide source demo_sequence
              demo_sequence_range Hpos Hlen) as (X & y & Hrun & _ & _ & Hslide).
  exact (ex_intro _ X (ex_intro _ y (conj Hrun Hslide))).
Defined.

Lemma sample_returns_draw_witness :
  (5 < length (replicate 16 (1 # 16)%Q))%nat ∧
  @np_random_multinomial (stub 16) 5%nat 1
    (@tempered (stub 16) (replicate 16 (1 # 16)%Q) (11 # 10)%Q) 1
  = (Ok [<[5%nat := 1]> (replicate (length (replicate 16 (1 # 16)%Q)) 0)], 6%nat) ∧
  @sample (stub 16) (replicate 16 (1 # 16)%Q) (11 # 10)%Q (@World (stub 16) [] 5%nat [])
  = (Ok 5, @World (stub 16) [] 6%nat []).
Proof.
  assert (5 < length (replicate 16 (1 # 16)%Q))%nat as Hj by (vm_compute; lia).
  split; [exact Hj|]. split; [reflexivity|].
  exact (@sample_returns_draw (stub 16) (replicate 16 (1 # 16)%Q) (11 # 10)%Q
           (@World (stub 16) [] 5%nat []) 5%nat 6%nat Hj eq_refl).
Defined.

Lemma source_out_pitches_range : Forall (λ p, 0 ≤ p < 128) (@OUT_PITCHES source).
Proof. cbn. repeat (apply Forall_cons_2; [lia|]). apply Forall_nil_2. Qed.

Lemma short_seed_range :
  Forall (λ id, 0 ≤ id < Z.of_nat (@num_classes source)) short_seed.
Proof. apply (bool_decide_unpack _). vm_compute. reflexivity. Qed.

Lemma decode_then_unfold_witness :
  [9; 4] ≠ [] ∧ Forall (λ id, 0 ≤ id < Z.of_nat (@num_classes source)) [9; 4] ∧
  length (@OUT_PITCHES source) = @num_pitches source ∧ NoDup (@OUT_PITCHES source) ∧
  Forall (λ p, 0 ≤ p < 128) (@OUT_PITCHES source) ∧
  ∃ decoded rendered,
    @decode source [9; 4] = Ok decoded ∧
    unfold decoded (@OUT_PITCHES source) = Ok rendered ∧
    column rendered 54 = [120; 0] ∧ column rendered 56 = [0; 120] ∧
    column rendered 60 = [120; 0] ∧ column rendered 36 = [0; 0].
Proof.
  assert ([9; 4] ≠ @nil Z) as Hne by discriminate.
  assert (Forall (λ id, 0 ≤ id < Z.of_nat (@num_classes source)) [9; 4]) as Hids
    by (apply (bool_decide_unpack _); vm_compute; reflexivity).
  assert (NoDup (@OUT_PITCHES source)) as Hnd
    by (apply (bool_decide_unpack _); vm_compute; reflexivity).
  split; [exact Hne|]. split; [exact Hids|]. split; [reflexivity|]. split; [exact Hnd|].
  split; [exact source_out_pitches_range|].
  destruct (@decode_then_unfold source [9; 4] Hne Hids eq_refl Hnd source_out_pitches_range)
    as (decoded & rendered & Hdec & Hunf & _ & _ & Hhit & Hmiss).
  exists decoded, rendered. split; [exact Hdec|]. split; [exact Hunf|].
  split; [exact (Hhit 0%nat 54 eq_refl)|]. split; [exact (Hhit 1%nat 56 eq_refl)|].
  split; [exact (Hhit 3%nat 60 eq_refl)|].
  apply (Hmiss 36%nat); [lia|]. apply (bool_decide_unpack _). vm_compute. reflexivity.
Defined.

Lemma seed_too_long_witness :
  (@PHRASE_LEN source < length long_seed)%nat ∧
  Forall (λ id, 0 ≤ id < Z.of_nat (@num_classes source)) long_seed ∧
  @generate_loop source (stub 16) tt long_seed (11 # 10)%Q 3 demo_world
  = (Raise IndexError, demo_world).
Proof.
  assert (@PHRASE_LEN source < length long_seed)%nat as Hlen by (vm_compute; lia).
  assert (Forall (λ id, 0 ≤ id < Z.of_nat (@num_classes source)) long_seed) as Hids
    by (apply (bool_decide_unpack _); vm_compute; reflexivity).
  split; [exact Hlen|]. split; [exact Hids|].
  exact (@seed_too_long source (stub 16) tt long_seed (11 # 10)%Q 2%nat demo_world
           Hlen Hids).
Defined.


Lemma generate_zero_length_witness :
  short_seed ≠ [] ∧ Forall (λ id, 0 ≤ id < Z.of_nat (@num_classes source)) short_seed ∧
  ∃ seed_array,
    @decode source short_seed = Ok seed_array ∧
    @generate source (stub 16) tt short_seed (Format "out.mid" []) (11 # 10)%Q 0 demo_world
    = (Raise ValueError,
       @World (stub 16) (fs demo_world) (gen demo_world)
         (out demo_world ++ [@EvCall_generate (stub 16) (Format "out.mid" []) (11 # 10)%Q 0;
                             @EvPrintArray (stub 16) seed_array])).
Proof.
  assert (short_seed ≠ @nil Z) as Hne by discriminate.
  split; [exact Hne|]. split; [exact short_seed_range|].
  exact (@generate_zero_length source (stub 16) tt short_seed (Format "out.mid" [])
           (11 # 10)%Q demo_world Hne short_seed_range).
Defined.



Lemma main_stops_on_silent_corpus_witness :
  (length (@PITCHES source) ≤ 8)%nat ∧ (0 < @PHRASE_LEN source)%nat ∧
  @corpus_readable source (fs silent_world) ∧
  Forall (λ dir, Forall (@filtered source) dir.2) (fs silent_world) ∧
  @main source (stub 16) silent_world
  = (Raise ValueError,
     @World (stub 16) (fs silent_world) 10%nat
       (out silent_world ++ @EvWalk (stub 16) (@MIDI_IN_DIR source)
          :: @corpus_events source (stub 16) (fs silent_world))).
Proof.
  assert (length (@PITCHES source) ≤ 8)%nat as Hp by (vm_compute; lia).
  assert (0 < @PHRASE_LEN source)%nat as Hpos by (vm_compute; lia).
  split; [exact Hp|]. split; [exact Hpos|]. split; [exact silent_world_readable|].
  split; [exact silent_world_filtered|].
  exact (@main_stops_on_silent_corpus source (stub 16) silent_world Hp Hpos
           silent_world_readable silent_world_filtered).
Defined.

Lemma wide_fs_readable : @corpus_readable wide (fs demo_world).
Proof.
  unfold corpus_readable, demo_world, demo_fs. cbn [fs]. apply Forall_singleton. cbn [snd].
  repeat (apply Forall_cons_2; [readable_file|]). apply Forall_nil_2.
Qed.

Lemma wide_fs_long : (@PHRASE_LEN wide ≤ length (@event_sequence wide (fs demo_world)))%nat.
Proof. vm_compute. lia. Qed.

Lemma run_needs_four_pitches_witness :
  @num_pitches wide ≠ 4%nat ∧ @corpus_readable wide (fs demo_world) ∧
  (@PHRASE_LEN wide ≤ length (@event_sequence wide (fs demo_world)))%nat ∧
  @run wide (stub 16) demo_world
  = (Raise KeyError,
     @World (stub 16) (fs demo_world) (gen demo_world)
       (out demo_world ++ @EvWalk (stub 16) (@MIDI_IN_DIR wide)
          :: @corpus_events wide (stub 16) (fs demo_world)
          ++ [@EvLoadWeights (stub 16) (@MODEL_OUT_DIR wide, @MODEL_NAME wide)])).
Proof.
  assert (@num_pitches wide ≠ 4%nat) as Hp by (vm_compute; lia).
  split; [exact Hp|]. split; [exact wide_fs_readable|]. split; [exact wide_fs_long|].
  exact (@run_needs_four_pitches wide (stub 16) demo_world Hp wide_fs_readable wide_fs_long).
Defined.


Lemma silent_in_pitch_columns_witness :
  0 < @MIN_HITS source ∧ @readable source other_drums_file ∧
  Forall (λ r, Forall (λ p, default 0 (r !! Z.to_nat p) ≤ 0) (@PITCHES source))
         (rows other_drums_file.2) ∧
  count_active (restrict other_drums_file.2 (@PITCHES source)) = 0 ∧
  @contribution source other_drums_file = [] ∧
  ∃ w', @load_file source (stub 16) "dir" [5] other_drums_file demo_world = (Ok [5], w').
Proof.
  assert (0 < @MIN_HITS source) as Hmin by (vm_compute; reflexivity).
  assert (@readable source other_drums_file) as Hread.
  { unfold readable. cbn. repeat (apply Forall_cons_2; [lia|]). apply Forall_nil_2. }
  assert (Forall (λ r, Forall (λ p, default 0 (r !! Z.to_nat p) ≤ 0) (@PITCHES source))
            (rows other_drums_file.2)) as Hsilent.
  { apply Forall_forall. intros r [-> _]%elem_of_replicate.
    repeat (apply Forall_cons_2; [vm_compute; discriminate|]). apply Forall_nil_2. }
  split; [exact Hmin|]. split; [exact Hread|]. split; [exact Hsilent|].
  exact (@silent_in_pitch_columns source (stub 16) "dir"%string other_drums_file [5]
           demo_world Hmin Hread Hsilent).
Defined.
